(** * scattermapbox/convert.js: conversion of a trace into map layers

    A shallow embedding of [src/traces/scattermapbox/convert.js] and the
    properties of its coordinate assembly, value indexing, stop tables and
    layer selection.

    JavaScript numbers are IEEE 754 binary64 values: they are modelled by
    Rocq's primitive floats, whose operations are the same.  Objects used as
    dictionaries are finite maps, except the value-to-index objects, whose
    key order matters ([Object.keys]) and which are association lists in
    creation order. *)

From Corelib Require Import PrimFloat.
From stdpp Require Import gmap strings list sorting.

Set Default Proof Using "Type".

(** ** JavaScript runtime pieces the module relies on *)

Definition number : Set := PrimFloat.float.

(** [n - n < 1] is the finiteness test [fast-isnumeric] ends with: it is
    false for [NaN] and for the two infinities. *)
Definition finite_number (n : number) : bool :=
  PrimFloat.ltb (PrimFloat.sub n n) 1%float.

Definition NaN : number := PrimFloat.nan.

(** ** The trace *)

(** An attribute that is [arrayOk]: one value for the whole trace, or one raw
    value per point.  The module uses the elements of such an array only as
    property keys ([hash[key][value]]), so the array holds each raw value as
    its property key. *)
Inductive arrayOk (A : Type) : Type :=
| Scalar (a : A)
| PerPoint (vals : list string).
Arguments Scalar {A} a.
Arguments PerPoint {A} vals.

Definition isArray {A} (x : arrayOk A) : bool :=
  match x with Scalar _ => false | PerPoint _ => true end.

Record Line := { line_width : number; line_color : string }.

Record Marker := {
  marker_color : arrayOk string;
  marker_size : arrayOk number;
  marker_opacity : number;
  marker_colorscale : list (number * string);
  marker_cmin : number;
  marker_cmax : number
}.

(** [trace.visible] is [true], [false] or ['legendonly']. *)
Inductive Visible := VisTrue | VisFalse | VisLegendonly.

#[global] Instance Visible_eq_dec : EqDecision Visible.
Proof. solve_decision. Defined.

Record Trace (V : Type) := {
  trace_visible : Visible;
  trace_mode : string;
  trace_fill : string;
  trace_fillcolor : string;
  trace_lon : list V;
  trace_lat : list V;
  trace_connectgaps : bool;
  trace_line : Line;
  trace_marker : Marker;
  trace_opacity : number
}.
Arguments trace_visible {V} _.
Arguments trace_mode {V} _.
Arguments trace_fill {V} _.
Arguments trace_fillcolor {V} _.
Arguments trace_lon {V} _.
Arguments trace_lat {V} _.
Arguments trace_connectgaps {V} _.
Arguments trace_line {V} _.
Arguments trace_marker {V} _.
Arguments trace_opacity {V} _.

(** A position [[+lon, +lat]]. *)
Definition Position : Type := number * number.

(** ** Value-to-index objects

    [hash[key]] is a plain object created by [{}]: its own properties map the
    property key of a raw value to a point index, and every other key is read
    on [Object.prototype].  Own properties are kept in creation order. *)
Definition ValueIndex : Type := list (string * nat).

(** What reading a property of such an object gives. *)
Inductive JSGet :=
| GUndefined
| GIndex (i : nat)
| GInherited (name : string).

(** The property names of [Object.prototype]. *)
Definition Object_prototype : list string :=
  ["constructor"; "__defineGetter__"; "__defineSetter__"; "hasOwnProperty";
   "__lookupGetter__"; "__lookupSetter__"; "isPrototypeOf";
   "propertyIsEnumerable"; "toString"; "valueOf"; "__proto__";
   "toLocaleString"]%string.

Definition inherited (k : string) : bool := bool_decide (k ∈ Object_prototype).

Fixpoint own (o : ValueIndex) (k : string) : option nat :=
  match o with
  | [] => None
  | (k', i) :: o' => if String.eqb k' k then Some i else own o' k
  end.

(** [o[k]] *)
Definition get (o : ValueIndex) (k : string) : JSGet :=
  match own o k with
  | Some i => GIndex i
  | None => if inherited k then GInherited k else GUndefined
  end.

(** [o[k] = i]: an own property keeps its place, a new one is created last. *)
Fixpoint assign (o : ValueIndex) (k : string) (i : nat) : ValueIndex :=
  match o with
  | [] => [(k, i)]
  | (k', j) :: o' =>
      if String.eqb k' k then (k', i) :: o' else (k', j) :: assign o' k i
  end.

(** [!x]: [undefined] and the number [0] are falsy, an index above [0] and
    the functions and objects of [Object.prototype] are truthy. *)
Definition falsy (x : JSGet) : bool :=
  match x with
  | GUndefined => true
  | GIndex i => bool_decide (i = 0)
  | GInherited _ => false
  end.

Definition digit (c : Ascii.ascii) : option N :=
  let n := Ascii.N_of_ascii c in
  if ((48 <=? n) && (n <=? 57))%N then Some (n - 48)%N else None.

Fixpoint digits (s : string) (acc : N) : option N :=
  match s with
  | EmptyString => Some acc
  | String c r =>
      match digit c with
      | Some d => digits r (10 * acc + d)%N
      | None => None
      end
  end.

(** The array index a property key stands for: a canonical decimal numeral
    below [2^32 - 1]. *)
Definition array_index (s : string) : option N :=
  match s with
  | EmptyString => None
  | String c r =>
      if bool_decide (digit c = Some 0%N) then
        if bool_decide (r = EmptyString) then Some 0%N else None
      else
        match digits s 0 with
        | Some n => if (n <? 2 ^ 32 - 1)%N then Some n else None
        | None => None
        end
  end.

Definition index_le (a b : N * string) : Prop := (a.1 ≤ b.1)%N.
#[global] Instance index_le_dec : RelDecision index_le :=
  λ a b, decide (a.1 ≤ b.1)%N.

(** [Object.keys(o)]: the array indices in ascending numeric order, then the
    other keys in creation order. *)
Definition Object_keys (o : ValueIndex) : list string :=
  let ks := o.*1 in
  (merge_sort index_le
     (omap (λ k, (λ n, (n, k)) <$> array_index k) ks)).*2
  ++ filter (λ k, array_index k = None) ks.

(** ** Layers *)

(** A feature of the marker layer; its geometry is always a ['Point']. *)
Record Feature := {
  geometry_coordinates : Position;
  properties : gmap string JSGet
}.

Inductive GeoJSON :=
| Point (coordinates : list number)
| Polygon (coordinates : list (list Position))
| MultiLineString (coordinates : list (list Position))
| FeatureCollection (features : list Feature).

(** A paint value: a number, a string, or a stop spec
    [{property, stops}] whose stops are [[index, value]] pairs. *)
Inductive PaintValue :=
| PNumber (x : number)
| PString (s : string)
| PColorStops (property : string) (stops : list (nat * string))
| PSizeStops (property : string) (stops : list (nat * number)).

Record Layout := { visibility : string }.

Record Layer := {
  geojson : GeoJSON;
  layout : Layout;
  paint : gmap string PaintValue
}.

Record Layers := { fill : Layer; lines : Layer; markers : Layer }.

Definition COLOR_PROP : string := "circle-color".
Definition SIZE_PROP : string := "circle-size".

Definition makeBlankGeoJSON : GeoJSON := Point [].

Definition initContainer : Layer :=
  {| geojson := makeBlankGeoJSON;
     layout := {| visibility := "none" |};
     paint := ∅ |}.

(** Modelled from the spec: [Lib.extendFlat] of [src/lib], which copies the
    properties of its second argument into its first, in order. *)
Definition extendFlat (target : gmap string PaintValue)
    (source : list (string * PaintValue)) : gmap string PaintValue :=
  foldl (λ t kv, <[kv.1 := kv.2]> t) target source.

(** [stops.sort(function(a, b) { return a[0] - b[0]; })] *)
Definition stop_le {A} (a b : nat * A) : Prop := a.1 ≤ b.1.
#[global] Instance stop_le_dec {A} : RelDecision (@stop_le A) :=
  λ a b, decide (a.1 ≤ b.1).
Definition sort_stops {A} (stops : list (nat * A)) : list (nat * A) :=
  merge_sort stop_le stops.

(** ** The store of a call

    [convert] receives a reference to the trace and creates one [hash]
    object that [makeMarkerGeoJSON] fills and [calcMarkerColor] and
    [calcMarkerSize] read.  The store holds these two objects; the functions
    that assign to an object they did not create run in the state monad over
    it, the others are functions of the values they read. *)
Section Store.
Context {V : Type}.

Record Store := {
  st_trace : Trace V;
  st_hash : gmap string ValueIndex
}.

Definition M (A : Type) : Type := Store → A * Store.

#[global] Instance M_ret : MRet M := λ A a s, (a, s).
#[global] Instance M_bind : MBind M :=
  λ A B f m s, let '(a, s') := m s in f a s'.

(** [trace] *)
Definition readTrace : M (Trace V) := λ s, (st_trace s, s).

(** [hash] *)
Definition readHash : M (gmap string ValueIndex) := λ s, (st_hash s, s).

(** [var hash = {}] *)
Definition newHash : M unit :=
  λ s, ((), {| st_trace := st_trace s; st_hash := ∅ |}).

(** [hash[key] = o], and [hash[key][value] = index] with [o] the object
    after the assignment. *)
Definition writeHash (key : string) (o : ValueIndex) : M unit :=
  λ s, ((), {| st_trace := st_trace s; st_hash := <[key := o]> (st_hash s) |}).

Fixpoint foldlM {A B} (f : A → B → M A) (a : A) (l : list B) : M A :=
  match l with
  | [] => mret a
  | b :: l' => a' ← f a b; foldlM f a' l'
  end.
End Store.
Arguments Store V : clear implicits.
Arguments M V A : clear implicits.

(** [cont[index]] as a property key; past the end it is [undefined]. *)
Definition key_at (cont : list string) (index : nat) : string :=
  default "undefined" (cont !! index).

(** The index a key of [Object.keys(o)] is read at: it is an own property. *)
Definition index_of (o : ValueIndex) (val : string) : nat :=
  default 0 (own o val).

Section Convert.
Context {V : Type}.

(** The collaborators of the module: [fast-isnumeric] and the unary [+] on
    the values of [trace.lon] and [trace.lat], [scatter/subtypes],
    [colorscale/has_colorscale], [colorscale/make_scale_function] and
    [scatter/make_bubble_size_func]. *)
Variable isNumeric : V → bool.
Variable toNumber : V → number.
Variable subTypes_hasLines subTypes_hasMarkers : Trace V → bool.
Variable hasColorscale : Trace V → string → bool.
Variable makeColorScaleFn :
  list (number * string) → number → number → string → string.
Variable makeBubbleSizeFn : Trace V → string → number.

(** An element read past the end of an array is [undefined]: it is not
    numeric, and [+undefined] is [NaN]. *)
Definition isNumeric_elt (x : option V) : bool := from_option isNumeric false x.
Definition toNumber_elt (x : option V) : number := from_option toNumber NaN x.

Definition checkLonLat (lon lat : option V) : bool :=
  isNumeric_elt lon && isNumeric_elt lat.

Definition getCoordLen (trace : Trace V) : nat := length (trace_lon trace).

(** The two arrays of [getCoords]: the closed line strings and the one
    being filled. *)
Record CoordState := {
  cs_coords : list (list Position);
  cs_lineString : list Position
}.

(** One turn of the loop of [getCoords]. *)
Definition getCoords_step (trace : Trace V) (st : CoordState) (i : nat)
  : CoordState :=
  let lon := trace_lon trace !! i in
  let lat := trace_lat trace !! i in
  if checkLonLat lon lat then
    {| cs_coords := cs_coords st;
       cs_lineString := cs_lineString st ++ [(toNumber_elt lon, toNumber_elt lat)] |}
  else if negb (trace_connectgaps trace)
          && bool_decide (0 < length (cs_lineString st)) then
    {| cs_coords := cs_coords st ++ [cs_lineString st];
       cs_lineString := [] |}
  else st.

Definition getCoords (trace : Trace V) : list (list Position) :=
  let len := getCoordLen trace in
  let st := foldl (getCoords_step trace)
                  {| cs_coords := []; cs_lineString := [] |}
                  (seq 0 len) in
  cs_coords st ++ [cs_lineString st].

Definition makeFillGeoJSON (trace : Trace V) (coords : list (list Position))
  : GeoJSON := Polygon coords.

Definition makeLineGeoJSON (trace : Trace V) (coords : list (list Position))
  : GeoJSON := MultiLineString coords.

(** [translate], the closure of [makeMarkerGeoJSON] over [hash]; it
    returns [props] after [props[key]] is set. *)
Definition translate (props : gmap string JSGet) (key : string)
    (cont : list string) (index : nat) : M V (gmap string JSGet) :=
  let value := key_at cont index in
  hash ← readHash;
  (if falsy (get (hash !!! key) value)
   then writeHash key (assign (hash !!! key) value index)
   else mret ());;
  hash ← readHash;
  mret (<[key := get (hash !!! key) value]> props).

(** One turn of the loop of [makeMarkerGeoJSON]. *)
Definition makeMarkerGeoJSON_step (trace : Trace V)
    (features : list Feature) (i : nat) : M V (list Feature) :=
  let marker := trace_marker trace in
  let lon := trace_lon trace !! i in
  let lat := trace_lat trace !! i in
  props ← match marker_color marker with
          | PerPoint color => translate ∅ COLOR_PROP color i
          | Scalar _ => mret ∅
          end;
  props ← match marker_size marker with
          | PerPoint size => translate props SIZE_PROP size i
          | Scalar _ => mret props
          end;
  mret (if checkLonLat lon lat
        then features ++ [{| geometry_coordinates := (toNumber_elt lon, toNumber_elt lat);
                             properties := props |}]
        else features).

Definition makeMarkerGeoJSON : M V GeoJSON :=
  trace ← readTrace;
  let len := getCoordLen trace in
  features ← foldlM (makeMarkerGeoJSON_step trace) [] (seq 0 len);
  mret (FeatureCollection features).

Definition calcMarkerColor (trace : Trace V)
    (hash : gmap string ValueIndex) : PaintValue :=
  let marker := trace_marker trace in
  match marker_color marker with
  | PerPoint _ =>
      let colorFn :=
        if hasColorscale trace "marker"
        then makeColorScaleFn (marker_colorscale marker)
               (marker_cmin marker) (marker_cmax marker)
        else id in
      let vals := Object_keys (hash !!! COLOR_PROP) in
      let stops :=
        (λ val, (index_of (hash !!! COLOR_PROP) val, colorFn val)) <$> vals in
      PColorStops SIZE_PROP stops
  | Scalar color => PString color
  end.

Definition calcMarkerSize (trace : Trace V)
    (hash : gmap string ValueIndex) : PaintValue :=
  let marker := trace_marker trace in
  match marker_size marker with
  | PerPoint _ =>
      let sizeFn := makeBubbleSizeFn trace in
      let vals := Object_keys (hash !!! SIZE_PROP) in
      let stops :=
        (λ val, (index_of (hash !!! SIZE_PROP) val, sizeFn val)) <$> vals in
      PSizeStops SIZE_PROP (sort_stops stops)
  | Scalar size => PNumber (PrimFloat.div size 2)
  end.

(** [coords] is read only where it has been assigned, so it is bound to
    the value [getCoords] gives. *)
Definition convert : M V Layers :=
  trace ← readTrace;
  let isVisible := bool_decide (trace_visible trace = VisTrue) in
  let hasFill := negb (String.eqb (trace_fill trace) "none") in
  let hasLines := subTypes_hasLines trace in
  let hasMarkers := subTypes_hasMarkers trace in
  let fill := initContainer in
  let lines := initContainer in
  let markers := initContainer in
  let coords := getCoords trace in
  let fill :=
    if isVisible && hasFill then
      {| geojson := makeFillGeoJSON trace coords;
         layout := {| visibility := "visible" |};
         paint := extendFlat (paint fill)
                    [("fill-color", PString (trace_fillcolor trace))] |}
    else fill in
  let lines :=
    if isVisible && hasLines then
      let line := trace_line trace in
      {| geojson := makeLineGeoJSON trace coords;
         layout := {| visibility := "visible" |};
         paint := extendFlat (paint lines)
                    [("line-width", PNumber (line_width line));
                     ("line-color", PString (line_color line));
                     ("line-opacity", PNumber (trace_opacity trace))] |}
    else lines in
  markers ←
    (if isVisible && hasMarkers then
       newHash;;
       writeHash COLOR_PROP [];;
       writeHash SIZE_PROP [];;
       geojson ← makeMarkerGeoJSON;
       hash ← readHash;
       mret
         {| geojson := geojson;
            layout := {| visibility := "visible" |};
            paint := extendFlat (paint markers)
                       [("circle-opacity",
                         PNumber (PrimFloat.mul (trace_opacity trace)
                                    (marker_opacity (trace_marker trace))));
                        ("circle-color", calcMarkerColor trace hash);
                        ("circle-radius", calcMarkerSize trace hash)] |}
     else mret markers);
  mret {| fill := fill; lines := lines; markers := markers |}.
End Convert.

(** * Vocabulary of the properties *)

(** ** Coordinate assembly *)
Section CoordinateVocabulary.
Context {V : Type}.
Variable isNumeric : V → bool.
Variable toNumber : V → number.

#[local] Abbreviation checkLonLat := (checkLonLat isNumeric).
#[local] Abbreviation toNumber_elt := (toNumber_elt toNumber).

(** Point [i] of the trace is valid. *)
Definition valid_point (trace : Trace V) (i : nat) : bool :=
  checkLonLat (trace_lon trace !! i) (trace_lat trace !! i).

Definition valid_flags (trace : Trace V) : list bool :=
  valid_point trace <$> seq 0 (getCoordLen trace).

(** The number of maximal runs of [true] in a list of flags, [prev] being
    the flag before the list. *)
Fixpoint count_runs (prev : bool) (flags : list bool) : nat :=
  match flags with
  | [] => 0
  | b :: flags' =>
      (if b && negb prev then 1 else 0) + count_runs b flags'
  end.

(** The number of maximal runs of consecutive valid points. *)
Definition valid_runs (trace : Trace V) : nat :=
  count_runs false (valid_flags trace).

(** The last point of the trace is valid. *)
Definition ends_valid (trace : Trace V) : bool :=
  default false (last (valid_flags trace)).

(** The valid pairs of two arrays, coerced, in their order. *)
Definition valid_positions (lon lat : list V) : list Position :=
  (λ p, (toNumber p.1, toNumber p.2))
    <$> filter (λ p, isNumeric p.1 && isNumeric p.2) (zip lon lat).

Definition open_run (st : CoordState) : bool :=
  bool_decide (0 < length (cs_lineString st)).

Definition runs_seen (st : CoordState) : nat :=
  length (cs_coords st) + (if open_run st then 1 else 0).

(** What the points [l] add to the line string when gaps are connected. *)
Definition position (lonlat : option V * option V) : option Position :=
  if checkLonLat lonlat.1 lonlat.2
  then Some (toNumber_elt lonlat.1, toNumber_elt lonlat.2) else None.

Definition read_point (trace : Trace V) (i : nat) : option V * option V :=
  (trace_lon trace !! i, trace_lat trace !! i).

End CoordinateVocabulary.

(** ** Value indexing *)

(** What one call of [translate] does to [hash[key]]. *)
Definition translate_object (cont : list string) (o : ValueIndex)
    (index : nat) : ValueIndex :=
  let value := key_at cont index in
  if falsy (get o value) then assign o value index else o.

(** [hash[key]] after the points before [n] have been translated. *)
Definition index_object (cont : list string) (n : nat) : ValueIndex :=
  foldl (translate_object cont) [] (seq 0 n).

(** What the loop of [makeMarkerGeoJSON] does at point [i] to the object of
    an [arrayOk] attribute. *)
Definition style_index {A} (a : arrayOk A) (o : ValueIndex) (i : nat)
  : ValueIndex :=
  match a with
  | PerPoint cont => translate_object cont o i
  | Scalar _ => o
  end.

(** ** Stop tables and layers *)

Definition is_stop_spec (p : PaintValue) : bool :=
  match p with
  | PColorStops _ _ | PSizeStops _ _ => true
  | PNumber _ | PString _ => false
  end.

(** The indices of the stops of a paint value, in their order. *)
Definition stop_indices (p : PaintValue) : list nat :=
  match p with
  | PColorStops _ stops => stops.*1
  | PSizeStops _ stops => stops.*1
  | PNumber _ | PString _ => []
  end.

(** Ascending by index. *)
Definition ascending (indices : list nat) : Prop := Sorted le indices.

#[global] Instance ascending_dec indices : Decision (ascending indices).
Proof. unfold ascending. apply _. Defined.

(** The hidden placeholder every layer starts as. *)
Definition hidden_layer : Layer :=
  {| geojson := Point [];
     layout := {| visibility := "none" |};
     paint := ∅ |}.

(** The store in which [convert] runs [makeMarkerGeoJSON]. *)
Definition fresh_hash_store {V} (trace : Trace V) : Store V :=
  {| st_trace := trace;
     st_hash := <[SIZE_PROP := []]> (<[COLOR_PROP := []]> ∅) |}.

(** ** Scenarios

    The collaborators the scenarios run with: coordinates are numbers, on
    which [fast-isnumeric] is the finiteness test and the unary [+] does
    nothing; [scatter/subtypes] looks for the flag in [trace.mode]; there is
    no colorscale, so colors go through [Lib.identity]; every bubble has
    radius [1]. *)
Definition isNumeric_number (n : number) : bool := finite_number n.
Definition toNumber_number (n : number) : number := n.

Definition mode_has (flag : string) (trace : Trace number) : bool :=
  if String.index 0 flag (trace_mode trace) is Some _ then true else false.

Definition no_colorscale (trace : Trace number) (cont : string) : bool := false.
Definition no_scale (colorscale : list (number * string)) (cmin cmax : number)
  (val : string) : string := val.
Definition unit_bubble (trace : Trace number) (val : string) : number := 1%float.

Definition getCoords_numbers : Trace number → list (list Position) :=
  getCoords isNumeric_number toNumber_number.

Definition convert_numbers : M number Layers :=
  convert isNumeric_number toNumber_number (mode_has "lines")
    (mode_has "markers") no_colorscale no_scale unit_bubble.

(** A visible trace with lines and markers and no fill. *)
Definition scatter (lon lat : list number) (connectgaps : bool)
    (color : arrayOk string) (size : arrayOk number) : Trace number :=
  {| trace_visible := VisTrue;
     trace_mode := "lines+markers";
     trace_fill := "none";
     trace_fillcolor := "rgba(0,0,0,0)";
     trace_lon := lon;
     trace_lat := lat;
     trace_connectgaps := connectgaps;
     trace_line := {| line_width := 2%float; line_color := "#444" |};
     trace_marker :=
       {| marker_color := color;
          marker_size := size;
          marker_opacity := 1%float;
          marker_colorscale := [];
          marker_cmin := 0%float;
          marker_cmax := 1%float |};
     trace_opacity := 1%float |}.

(** A call of [convert] on a trace, whatever the store held. *)
Definition call (trace : Trace number) : Layers * Store number :=
  convert_numbers {| st_trace := trace; st_hash := ∅ |}.

Definition features_of (g : GeoJSON) : list Feature :=
  match g with
  | FeatureCollection features => features
  | Point _ | Polygon _ | MultiLineString _ => []
  end.

Definition gapped : list number := [1; 2; NaN; 3]%float.

Definition trace_gapped : Trace number :=
  scatter gapped gapped false (Scalar "#444") (Scalar 6%float).
Definition trace_connected : Trace number :=
  scatter gapped gapped true (Scalar "#444") (Scalar 6%float).
Definition trace_trailing_gap : Trace number :=
  scatter [1; NaN]%float [1; NaN]%float false (Scalar "#444") (Scalar 6%float).
Definition trace_aba : Trace number :=
  scatter [1; 2; 3]%float [1; 2; 3]%float false
    (PerPoint ["a"; "b"; "a"]) (Scalar 6%float).
Definition trace_numeric_colors : Trace number :=
  scatter [1; 2]%float [1; 2]%float false
    (PerPoint ["20"; "10"]) (Scalar 6%float).
Definition trace_invalid_first : Trace number :=
  scatter [NaN; 1]%float [NaN; 1]%float false
    (PerPoint ["a"; "b"]) (Scalar 6%float).
Definition trace_size_10 : Trace number :=
  scatter [1; 2]%float [1; 2]%float false (Scalar "#444") (Scalar 10%float).
Definition trace_hidden : Trace number :=
  {| trace_visible := VisLegendonly;
     trace_mode := "lines+markers";
     trace_fill := "tozeroy";
     trace_fillcolor := "red";
     trace_lon := gapped;
     trace_lat := gapped;
     trace_connectgaps := false;
     trace_line := {| line_width := 2%float; line_color := "#444" |};
     trace_marker := trace_marker trace_aba;
     trace_opacity := 1%float |}.

(** The array of a style property, when the attribute is array-valued. *)
Definition style_array (marker : Marker) (key : string) : option (list string) :=
  if decide (key = COLOR_PROP) then
    match marker_color marker with PerPoint c => Some c | Scalar _ => None end
  else if decide (key = SIZE_PROP) then
    match marker_size marker with PerPoint c => Some c | Scalar _ => None end
  else None.

(** The number of sub-sequences is the number of runs of valid points. *)
Definition subsequences_are_runs {V} (isNumeric : V → bool)
    (toNumber : V → number) (trace : Trace V) : Prop :=
  length (getCoords isNumeric toNumber trace) = valid_runs isNumeric trace.

(** Every recorded value occurs at a valid point. *)
Definition indexes_valid_points_only {V} (isNumeric : V → bool)
    (trace : Trace V) (cont : list string) (o : ValueIndex) : Prop :=
  ∀ v i, own o v = Some i →
    ∃ j, j < getCoordLen trace
         ∧ valid_point isNumeric trace j = true ∧ key_at cont j = v.

(** ** Features and their properties *)

(** The object of an [arrayOk] attribute after the points before [n]. *)
Definition style_object {A} (a : arrayOk A) (n : nat) : ValueIndex :=
  foldl (style_index a) [] (seq 0 n).

(** What [translate] sets [props[key]] to at point [n], the points before
    it having been translated. *)
Definition index_at (cont : list string) (n : nat) : JSGet :=
  get (index_object cont (S n)) (key_at cont n).

(** The [props] of point [n]. *)
Definition props_at (marker : Marker) (n : nat) : gmap string JSGet :=
  let props :=
    match marker_color marker with
    | PerPoint color => <[COLOR_PROP := index_at color n]> ∅
    | Scalar _ => ∅
    end in
  match marker_size marker with
  | PerPoint size => <[SIZE_PROP := index_at size n]> props
  | Scalar _ => props
  end.

(** The feature of point [n], when the point is valid. *)
Definition feature_at {V} (isNumeric : V → bool) (toNumber : V → number)
    (trace : Trace V) (n : nat) : option Feature :=
  let lon := trace_lon trace !! n in
  let lat := trace_lat trace !! n in
  if checkLonLat isNumeric lon lat
  then Some {| geometry_coordinates :=
                 (toNumber_elt toNumber lon, toNumber_elt toNumber lat);
               properties := props_at (trace_marker trace) n |}
  else None.

(** The value read at position [0] is read at no later position below [len]. *)
Definition first_value_unique (cont : list string) (len : nat) : Prop :=
  ∀ j, 0 < j → j < len → key_at cont j ≠ key_at cont 0.

(** The stop a recorded entry gives, [fn] being the color or size function. *)
Definition stop_of {A} (fn : string → A) (entry : string * nat) : nat * A :=
  (entry.2, fn entry.1).

(** [colorFn] of [calcMarkerColor]. *)
Definition colorFn_of {V} (hasColorscale : Trace V → string → bool)
    (makeColorScaleFn :
       list (number * string) → number → number → string → string)
    (trace : Trace V) : string → string :=
  let marker := trace_marker trace in
  if hasColorscale trace "marker"
  then makeColorScaleFn (marker_colorscale marker)
         (marker_cmin marker) (marker_cmax marker)
  else id.

Definition trace_abc : Trace number :=
  scatter [1; NaN; 3]%float [1; NaN; 3]%float false
    (PerPoint ["a"; "b"; "c"]) (PerPoint ["30"; "10"; "20"]).
Definition trace_filled : Trace number :=
  {| trace_visible := VisTrue;
     trace_mode := "lines";
     trace_fill := "toself";
     trace_fillcolor := "red";
     trace_lon := gapped;
     trace_lat := gapped;
     trace_connectgaps := false;
     trace_line := {| line_width := 2%float; line_color := "#444" |};
     trace_marker := trace_marker trace_aba;
     trace_opacity := 0.5%float |}.

(** * Properties *)

(** ** Coordinate assembly *)
Section CoordinateFacts.
Context {V : Type}.
Variable isNumeric : V → bool.
Variable toNumber : V → number.

#[local] Abbreviation checkLonLat := (checkLonLat isNumeric).
#[local] Abbreviation toNumber_elt := (toNumber_elt toNumber).
#[local] Abbreviation getCoords_step := (getCoords_step isNumeric toNumber).
#[local] Abbreviation getCoords := (getCoords isNumeric toNumber).
#[local] Abbreviation valid_point := (valid_point isNumeric).
#[local] Abbreviation position := (position isNumeric toNumber).

Lemma getCoords_step_valid trace st i :
  valid_point trace i = true →
  getCoords_step trace st i =
    {| cs_coords := cs_coords st;
       cs_lineString := cs_lineString st ++
         [(toNumber_elt (trace_lon trace !! i), toNumber_elt (trace_lat trace !! i))] |}.
Proof. unfold valid_point, getCoords_step. by intros ->. Qed.

Lemma getCoords_step_gap trace st i :
  valid_point trace i = false →
  getCoords_step trace st i =
    if negb (trace_connectgaps trace) && open_run st
    then {| cs_coords := cs_coords st ++ [cs_lineString st];
            cs_lineString := [] |}
    else st.
Proof. unfold valid_point, getCoords_step. by intros ->. Qed.

(** Without [connectgaps], the loop counts the runs: closed line strings
    and the open one. *)
Lemma getCoords_loop_runs trace l st :
  trace_connectgaps trace = false →
  let st' := foldl (getCoords_step trace) st l in
  runs_seen st' =
    runs_seen st + count_runs (open_run st) (valid_point trace <$> l)
  ∧ open_run st' = default (open_run st) (last (valid_point trace <$> l)).
Proof.
  intros Hgaps. revert st. induction l as [|i l IH]; intros st.
  { simpl. split; [lia | done]. }
  rewrite fmap_cons, last_cons. cbn [foldl count_runs].
  destruct (IH (getCoords_step trace st i)) as [IHn IHo].
  rewrite IHn, IHo. clear IH IHn IHo.
  generalize (last (valid_point trace <$> l)). intros lst.
  destruct (valid_point trace i) eqn:Hv.
  - rewrite (getCoords_step_valid _ _ _ Hv).
    assert (open_run {| cs_coords := cs_coords st;
              cs_lineString := cs_lineString st ++
                [(toNumber_elt (trace_lon trace !! i), toNumber_elt (trace_lat trace !! i))] |}
            = true) as Ho.
    { unfold open_run; simpl. rewrite length_app; simpl.
      apply bool_decide_eq_true. lia. }
    rewrite Ho. split; [|by destruct lst].
    unfold runs_seen at 1. rewrite Ho. simpl cs_coords.
    unfold runs_seen. destruct (open_run st); simpl; lia.
  - rewrite (getCoords_step_gap _ _ _ Hv), Hgaps. simpl negb.
    destruct (open_run st) eqn:Ho; simpl andb; cbv iota.
    + assert (open_run {| cs_coords := cs_coords st ++ [cs_lineString st];
                cs_lineString := [] |} = false) as Ho' by done.
      rewrite Ho'. split; [|by destruct lst].
      unfold runs_seen. rewrite Ho, Ho'. simpl cs_coords.
      rewrite length_app. simpl. lia.
    + rewrite Ho. split; [lia | by destruct lst].
Qed.

(** A trace without a valid point leaves both arrays empty. *)
Lemma getCoords_loop_no_valid trace l :
  Forall (λ i, valid_point trace i = false) l →
  foldl (getCoords_step trace) {| cs_coords := []; cs_lineString := [] |} l
  = {| cs_coords := []; cs_lineString := [] |}.
Proof.
  induction 1 as [|i l Hv _ IH]; [done|]. simpl.
  rewrite (getCoords_step_gap _ _ _ Hv).
  by rewrite andb_false_r.
Qed.

Lemma getCoords_loop_connect trace l st :
  trace_connectgaps trace = true →
  foldl (getCoords_step trace) st l =
    {| cs_coords := cs_coords st;
       cs_lineString :=
         cs_lineString st ++ omap position (read_point trace <$> l) |}.
Proof.
  intros Hgaps. revert st. induction l as [|i l IH]; intros st; simpl.
  { rewrite app_nil_r. by destruct st. }
  rewrite IH. unfold position at 2. simpl.
  fold (valid_point trace i).
  destruct (valid_point trace i) eqn:Hv.
  - rewrite (getCoords_step_valid _ _ _ Hv). simpl.
    by rewrite <- app_assoc.
  - rewrite (getCoords_step_gap _ _ _ Hv), Hgaps. done.
Qed.

Lemma read_points_zip (lon lat : list V) :
  length lon = length lat →
  (λ i, (lon !! i, lat !! i)) <$> seq 0 (length lon)
  = (λ p, (Some p.1, Some p.2)) <$> zip lon lat.
Proof.
  intros Hlen. apply list_eq. intros i.
  rewrite !list_lookup_fmap.
  destruct (decide (i < length lon)) as [Hi|Hi].
  - rewrite lookup_seq_lt by done. simpl.
    destruct (lookup_lt_is_Some_2 lon i Hi) as [x Hx].
    assert (i < length lat) as Hi' by lia.
  destruct (lookup_lt_is_Some_2 lat i Hi') as [y Hy].
    assert (zip lon lat !! i = Some (x, y)) as ->
      by (apply lookup_zip_with_Some; eauto).
    simpl. by rewrite Hx, Hy.
  - rewrite lookup_seq_ge by lia. simpl.
    rewrite lookup_ge_None_2; [done|].
    rewrite length_zip_with. lia.
Qed.

Lemma omap_position_zip (ps : list (V * V)) :
  omap position ((λ p, (Some p.1, Some p.2)) <$> ps)
  = (λ p, (toNumber p.1, toNumber p.2))
      <$> filter (λ p, isNumeric p.1 && isNumeric p.2) ps.
Proof.
  induction ps as [|[x y] ps IH]; [done|].
  rewrite fmap_cons, filter_cons.
  transitivity
    (match position (Some x, Some y) with
     | Some q => q :: omap position ((λ p : V * V, (Some p.1, Some p.2)) <$> ps)
     | None => omap position ((λ p : V * V, (Some p.1, Some p.2)) <$> ps)
     end); [reflexivity|].
  rewrite IH. unfold position, checkLonLat. simpl.
  destruct (isNumeric x && isNumeric y) eqn:E.
  - by rewrite decide_True by done.
  - by rewrite decide_False by (by intros ?).
Qed.
End CoordinateFacts.

(** ** Value-to-index objects *)

Lemma own_assign_eq o k i : own (assign o k i) k = Some i.
Proof.
  induction o as [|[k' j] o IH]; simpl.
  - by rewrite String.eqb_refl.
  - destruct (String.eqb k' k) eqn:E; simpl; by rewrite E.
Qed.

Lemma own_assign_ne o k k' i : k ≠ k' → own (assign o k i) k' = own o k'.
Proof.
  intros Hne. induction o as [|[k'' j] o IH]; simpl.
  - destruct (String.eqb k k') eqn:E; [|done].
    apply String.eqb_eq in E. congruence.
  - destruct (String.eqb k'' k) eqn:E; simpl.
    + apply String.eqb_eq in E. subst k''.
      destruct (String.eqb k k') eqn:E'; [|done].
      apply String.eqb_eq in E'. congruence.
    + by rewrite IH.
Qed.

Lemma own_is_Some o k : is_Some (own o k) ↔ k ∈ o.*1.
Proof.
  induction o as [|[k' i] o IH]; simpl.
  - rewrite elem_of_nil. split; [by intros [? ?] | done].
  - rewrite elem_of_cons.
    destruct (String.eqb k' k) eqn:E.
    + apply String.eqb_eq in E. subst k'. split; eauto.
    + apply String.eqb_neq in E. rewrite IH.
      split; [by right | by intros [?|?]].
Qed.


Lemma index_object_S cont n :
  index_object cont (S n) = translate_object cont (index_object cont n) n.
Proof. unfold index_object. by rewrite seq_S, foldl_snoc. Qed.

Lemma own_translate_object cont o n v :
  own (translate_object cont o n) v =
    if decide (key_at cont n = v) then
      match own o v with
      | Some i => if decide (i = 0) then Some n else Some i
      | None => if inherited v then None else Some n
      end
    else own o v.
Proof.
  unfold translate_object, get. case_decide as Hk.
  - subst v. destruct (own o (key_at cont n)) as [i|] eqn:Ho; simpl.
    + case_bool_decide; case_decide; try done.
      apply own_assign_eq.
    + destruct (inherited (key_at cont n)); simpl; [done|].
      apply own_assign_eq.
  - destruct (falsy _); [|done]. by apply own_assign_ne.
Qed.

(** A recorded index is a position of the array that holds the value. *)
Lemma index_object_occurs cont n v i :
  own (index_object cont n) v = Some i → i < n ∧ key_at cont i = v.
Proof.
  induction n as [|n IH]; [done|].
  rewrite index_object_S, own_translate_object.
  case_decide as Hk.
  - destruct (own (index_object cont n) v) as [j|] eqn:Ho.
    + case_decide; intros [= <-]; [by auto with lia|].
      destruct IH as [? ?]; auto with lia.
    + destruct (inherited v); intros [= <-]. auto with lia.
  - intros Ho. destruct (IH Ho). auto with lia.
Qed.

(** Every value read at a position below [n] is recorded, unless its key
    names a property of [Object.prototype]. *)
Lemma index_object_records cont n v i :
  i < n → key_at cont i = v → inherited v = false →
  is_Some (own (index_object cont n) v).
Proof.
  intros Hi Hv Hp. induction n as [|n IH]; [lia|].
  rewrite index_object_S, own_translate_object.
  case_decide as Hk.
  - destruct (own (index_object cont n) v) as [j|].
    + case_decide; eauto.
    + rewrite Hp. eauto.
  - apply IH. destruct (decide (i = n)); [congruence | lia].
Qed.

(** A value first read at a position above [0] keeps that position. *)
Lemma index_object_first cont n v p :
  p < n → key_at cont p = v → (∀ j, j < p → key_at cont j ≠ v) →
  0 < p → inherited v = false →
  own (index_object cont n) v = Some p.
Proof.
  intros Hp Hv Hfirst Hpos Hi. induction n as [|n IH]; [lia|].
  rewrite index_object_S, own_translate_object.
  destruct (decide (p = n)) as [->|Hne].
  - rewrite decide_True by done.
    destruct (own (index_object cont n) v) as [j|] eqn:Ho.
    + apply index_object_occurs in Ho as [Hj Hjv].
      by destruct (Hfirst j Hj).
    + by rewrite Hi.
  - rewrite IH by lia. case_decide; [|done].
    by rewrite decide_False by lia.
Qed.

(** A value read at position [0] and again later takes the position of its
    second reading: [!0] holds, so the recorded [0] is taken for no entry. *)
Lemma index_object_zero cont n v q :
  key_at cont 0 = v → 0 < q → q < n → key_at cont q = v →
  (∀ j, 0 < j → j < q → key_at cont j ≠ v) → inherited v = false →
  own (index_object cont n) v = Some q.
Proof.
  intros H0 Hq Hn Hv Hbetween Hi.
  assert (∀ m, 0 < m → m ≤ q → own (index_object cont m) v = Some 0) as Hzero.
  { intros m Hm Hmq. induction m as [|m IH]; [lia|].
    rewrite index_object_S, own_translate_object.
    destruct m as [|m].
    - rewrite decide_True by done. simpl. by rewrite Hi.
    - rewrite IH by lia. rewrite decide_False; [done|].
      apply Hbetween; lia. }
  induction n as [|n IH]; [lia|].
  rewrite index_object_S, own_translate_object.
  destruct (decide (q = n)) as [->|Hne].
  - rewrite decide_True by done. rewrite Hzero by lia. done.
  - rewrite IH by lia. case_decide; [|done].
    by rewrite decide_False by lia.
Qed.

(** ** The store during a call *)

Ltac run_store :=
  unfold mbind, M_bind, mret, M_ret, readHash, readTrace, writeHash, newHash;
  cbn beta iota.

Lemma COLOR_SIZE_distinct : COLOR_PROP ≠ SIZE_PROP.
Proof. done. Qed.

Section StoreFacts.
Context {V : Type}.
Variable isNumeric : V → bool.
Variable toNumber : V → number.

#[local] Abbreviation makeMarkerGeoJSON_step :=
  (makeMarkerGeoJSON_step isNumeric toNumber).
#[local] Abbreviation makeMarkerGeoJSON := (makeMarkerGeoJSON isNumeric toNumber).

Lemma translate_store props key cont i (s : Store V) :
  let s' := (translate props key cont i s).2 in
  st_trace s' = st_trace s
  ∧ st_hash s' !!! key = translate_object cont (st_hash s !!! key) i
  ∧ ∀ k, k ≠ key → st_hash s' !!! k = st_hash s !!! k.
Proof.
  unfold translate, translate_object. run_store.
  destruct (falsy _); simpl; [|done].
  split; [done|]. split; [apply lookup_total_insert_eq|].
  intros k Hk. by apply lookup_total_insert_ne.
Qed.

Lemma translate_props props key cont i (s : Store V) :
  (translate props key cont i s).1 =
    <[key := get (translate_object cont (st_hash s !!! key) i)
                 (key_at cont i)]> props.
Proof.
  unfold translate, translate_object. run_store.
  destruct (falsy _); simpl; [|done].
  by rewrite lookup_total_insert_eq.
Qed.

Lemma run_bind {A B} (m : M V A) (f : A → M V B) (s : Store V) :
  (m ≫= f) s = f (m s).1 (m s).2.
Proof. unfold mbind, M_bind. by destruct (m s). Qed.

Lemma run_ret {A} (a : A) (s : Store V) : (mret a : M V A) s = (a, s).
Proof. done. Qed.

Lemma makeMarkerGeoJSON_step_store trace features i (s : Store V) :
  let s' := (makeMarkerGeoJSON_step trace features i s).2 in
  let marker := trace_marker trace in
  st_trace s' = st_trace s
  ∧ st_hash s' !!! COLOR_PROP =
      style_index (marker_color marker) (st_hash s !!! COLOR_PROP) i
  ∧ st_hash s' !!! SIZE_PROP =
      style_index (marker_size marker) (st_hash s !!! SIZE_PROP) i.
Proof.
  unfold makeMarkerGeoJSON_step. cbn zeta. rewrite !run_bind, run_ret.
  cbn [snd].
  set (m1 := match marker_color (trace_marker trace) with
             | Scalar _ => mret ∅
             | PerPoint color => translate ∅ COLOR_PROP color i
             end).
  assert (st_trace (m1 s).2 = st_trace s
          ∧ st_hash (m1 s).2 !!! COLOR_PROP =
              style_index (marker_color (trace_marker trace))
                (st_hash s !!! COLOR_PROP) i
          ∧ st_hash (m1 s).2 !!! SIZE_PROP = st_hash s !!! SIZE_PROP)
    as (Ht1 & Hc1 & Hs1).
  { subst m1. destruct (marker_color (trace_marker trace)) as [c|color];
      [done|].
    destruct (translate_store ∅ COLOR_PROP color i s) as (? & ? & Ho).
    split_and!; [done..|]. apply Ho. by intros ?. }
  destruct (m1 s) as [props s1]. cbn [fst snd] in *.
  rewrite <- Ht1, <- Hc1, <- Hs1.
  destruct (marker_size (trace_marker trace)) as [z|size]; [done|].
  destruct (translate_store props SIZE_PROP size i s1) as (? & ? & Ho).
  split_and!; [done| |done]. apply Ho, COLOR_SIZE_distinct.
Qed.

Lemma makeMarkerGeoJSON_loop_store trace l features (s : Store V) :
  let s' := (foldlM (makeMarkerGeoJSON_step trace) features l s).2 in
  let marker := trace_marker trace in
  st_trace s' = st_trace s
  ∧ st_hash s' !!! COLOR_PROP =
      foldl (style_index (marker_color marker)) (st_hash s !!! COLOR_PROP) l
  ∧ st_hash s' !!! SIZE_PROP =
      foldl (style_index (marker_size marker)) (st_hash s !!! SIZE_PROP) l.
Proof.
  revert features s. induction l as [|i l IH]; intros features s; [done|].
  cbn [foldlM foldl]. unfold mbind, M_bind.
  destruct (makeMarkerGeoJSON_step_store trace features i s) as (Ht & Hc & Hs).
  destruct (makeMarkerGeoJSON_step trace features i s) as [features' s'].
  simpl in Ht, Hc, Hs.
  destruct (IH features' s') as (Ht' & Hc' & Hs').
  cbn zeta. rewrite Ht', Hc', Hs', Ht, Hc, Hs. done.
Qed.

Lemma makeMarkerGeoJSON_store (s : Store V) :
  let s' := (makeMarkerGeoJSON s).2 in
  let marker := trace_marker (st_trace s) in
  let len := getCoordLen (st_trace s) in
  st_trace s' = st_trace s
  ∧ st_hash s' !!! COLOR_PROP =
      foldl (style_index (marker_color marker)) (st_hash s !!! COLOR_PROP)
        (seq 0 len)
  ∧ st_hash s' !!! SIZE_PROP =
      foldl (style_index (marker_size marker)) (st_hash s !!! SIZE_PROP)
        (seq 0 len).
Proof.
  unfold makeMarkerGeoJSON. run_store.
  pose proof (makeMarkerGeoJSON_loop_store (st_trace s)
                (seq 0 (getCoordLen (st_trace s))) [] s) as H.
  destruct (foldlM _ _ _ s) as [features s']. exact H.
Qed.
End StoreFacts.

(** ** Stop tables and layers *)

#[global] Instance stop_le_total {A} : Total (@stop_le A).
Proof. intros a b. unfold stop_le. lia. Qed.

Lemma sort_stops_ascending {A} (stops : list (nat * A)) :
  ascending (sort_stops stops).*1.
Proof.
  unfold ascending, sort_stops.
  apply (Sorted_fmap fst stop_le le); [by intros ?? | ].
  apply Sorted_merge_sort, _.
Qed.

Section ConvertFacts.
Context {V : Type}.
Variable isNumeric : V → bool.
Variable toNumber : V → number.
Variable subTypes_hasLines subTypes_hasMarkers : Trace V → bool.
Variable hasColorscale : Trace V → string → bool.
Variable makeColorScaleFn :
  list (number * string) → number → number → string → string.
Variable makeBubbleSizeFn : Trace V → string → number.

#[local] Abbreviation makeMarkerGeoJSON := (makeMarkerGeoJSON isNumeric toNumber).
#[local] Abbreviation calcMarkerColor :=
  (calcMarkerColor hasColorscale makeColorScaleFn).
#[local] Abbreviation calcMarkerSize := (calcMarkerSize makeBubbleSizeFn).
#[local] Abbreviation convert :=
  (convert isNumeric toNumber subTypes_hasLines subTypes_hasMarkers
     hasColorscale makeColorScaleFn makeBubbleSizeFn).

Lemma calcMarkerSize_ascending trace hash :
  ascending (stop_indices (calcMarkerSize trace hash)).
Proof.
  unfold calcMarkerSize.
  destruct (marker_size (trace_marker trace)); simpl.
  - constructor.
  - apply sort_stops_ascending.
Qed.

Lemma convert_not_visible (s : Store V) :
  trace_visible (st_trace s) ≠ VisTrue →
  convert s =
    ({| fill := hidden_layer; lines := hidden_layer; markers := hidden_layer |},
     s).
Proof.
  intros Hvis. unfold convert. run_store.
  by rewrite bool_decide_eq_false_2 by done.
Qed.

Lemma convert_markers (s : Store V) :
  let trace := st_trace s in
  let r := makeMarkerGeoJSON (fresh_hash_store trace) in
  trace_visible trace = VisTrue →
  subTypes_hasMarkers trace = true →
  markers (convert s).1 =
    {| geojson := r.1;
       layout := {| visibility := "visible" |};
       paint :=
         <["circle-radius" := calcMarkerSize trace (st_hash r.2)]>
           (<["circle-color" := calcMarkerColor trace (st_hash r.2)]>
              (<["circle-opacity" :=
                   PNumber (PrimFloat.mul (trace_opacity trace)
                              (marker_opacity (trace_marker trace)))]> ∅)) |}
  ∧ (convert s).2 = r.2.
Proof.
  intros trace r Hvis Hm. subst trace. unfold convert.
  rewrite run_bind. unfold readTrace. cbn [fst snd]. cbn zeta.
  rewrite Hvis, Hm. rewrite bool_decide_eq_true_2 by done.
  cbn [andb]. rewrite !run_bind. unfold newHash, writeHash, readHash.
  cbn [fst snd st_trace st_hash].
  fold (fresh_hash_store (st_trace s)). fold r. done.
Qed.

Lemma convert_no_markers (s : Store V) :
  subTypes_hasMarkers (st_trace s) = false →
  markers (convert s).1 = hidden_layer ∧ (convert s).2 = s.
Proof.
  intros Hm. unfold convert. run_store. rewrite Hm, andb_false_r. done.
Qed.

(** The object of a style property when [convert] returns. *)
Lemma fresh_hash_index (trace : Trace V) :
  let s' := (makeMarkerGeoJSON (fresh_hash_store trace)).2 in
  let marker := trace_marker trace in
  let len := getCoordLen trace in
  st_trace s' = trace
  ∧ st_hash s' !!! COLOR_PROP =
      foldl (style_index (marker_color marker)) [] (seq 0 len)
  ∧ st_hash s' !!! SIZE_PROP =
      foldl (style_index (marker_size marker)) [] (seq 0 len).
Proof.
  destruct (makeMarkerGeoJSON_store isNumeric toNumber (fresh_hash_store trace))
    as (Ht & Hc & Hs).
  cbn zeta. rewrite Ht, Hc, Hs. done.
Qed.

(** [convert] leaves the trace of the store as it found it. *)
Lemma convert_trace (s : Store V) : st_trace (convert s).2 = st_trace s.
Proof.
  destruct (trace_visible (st_trace s)) eqn:Hvis.
  - destruct (subTypes_hasMarkers (st_trace s)) eqn:Hm.
    + destruct (convert_markers s Hvis Hm) as [_ ->].
      apply fresh_hash_index.
    + destruct (convert_no_markers s Hm) as [_ ->]. done.
  - rewrite convert_not_visible; [done | congruence].
  - rewrite convert_not_visible; [done | congruence].
Qed.

(** The layers do not depend on the hash object the store held before. *)
Lemma convert_hash_fresh (trace : Trace V) hash hash' :
  (convert {| st_trace := trace; st_hash := hash |}).1
  = (convert {| st_trace := trace; st_hash := hash' |}).1.
Proof.
  unfold convert. rewrite !run_bind. unfold readTrace. cbn [fst snd st_trace].
  cbn zeta.
  destruct (bool_decide (trace_visible trace = VisTrue)
            && subTypes_hasMarkers trace); [|done].
  rewrite !run_bind. unfold newHash, writeHash, readHash.
  cbn [fst snd st_trace st_hash]. done.
Qed.
End ConvertFacts.

(** * The claims *)

(** ** Coordinate assembly *)

(** C4, as stated, fails on a trace that ends with a gap: [lon = [1, NaN]],
    [lat = [1, NaN]] has one run of valid points and [getCoords] returns the
    two sub-sequences [[[1,1]], []]. *)
Lemma getCoords_trailing_gap :
  ¬ subsequences_are_runs isNumeric_number toNumber_number trace_trailing_gap.
Proof. unfold subsequences_are_runs. vm_compute. discriminate. Qed.

(** C4, amended: without [connectgaps], [getCoords] returns one sub-sequence
    per maximal run of consecutive valid points, followed by one empty
    sub-sequence unless the last point is valid; a trace without a valid
    point gives exactly one empty sub-sequence; and
    [lon = lat = [1, 2, NaN, 3]] gives [[[1,1],[2,2]], [[3,3]]]. *)
Theorem getCoords_gaps_runs :
  (∀ V (isNumeric : V → bool) (toNumber : V → number) (trace : Trace V),
     trace_connectgaps trace = false →
     length (getCoords isNumeric toNumber trace) =
       valid_runs isNumeric trace
       + (if ends_valid isNumeric trace then 0 else 1)
     ∧ ((∀ i, i < length (trace_lon trace) →
              valid_point isNumeric trace i = false) →
        getCoords isNumeric toNumber trace = [[]]))
  ∧ getCoords_numbers trace_gapped =
      [[(1, 1); (2, 2)]; [(3, 3)]]%float.
Proof.
  split; [|reflexivity].
  intros V isNumeric toNumber trace Hgaps. split.
  - unfold getCoords. cbn zeta. rewrite length_app. cbn [length].
    destruct (getCoords_loop_runs isNumeric toNumber trace
                (seq 0 (getCoordLen trace))
                {| cs_coords := []; cs_lineString := [] |} Hgaps)
      as [Hruns Hopen].
    cbn zeta in Hruns, Hopen. unfold runs_seen in Hruns at 1.
    unfold valid_runs, ends_valid, valid_flags.
    change (open_run {| cs_coords := []; cs_lineString := [] |})
      with false in Hruns, Hopen.
    rewrite <- Hopen. change (runs_seen _) with 0 in Hruns.
    destruct (open_run _); lia.
  - intros Hnone. unfold getCoords. cbn zeta.
    rewrite getCoords_loop_no_valid; [done|].
    apply Forall_forall. intros i Hi. apply Hnone.
    apply elem_of_seq in Hi. unfold getCoordLen in Hi. lia.
Qed.

Lemma getCoords_gaps_runs_witness :
  trace_connectgaps trace_trailing_gap = false
  ∧ length (getCoords_numbers trace_trailing_gap) = 1 + 1.
Proof.
  split; [reflexivity|].
  exact (proj1 (proj1 getCoords_gaps_runs number isNumeric_number
                 toNumber_number trace_trailing_gap eq_refl)).
Defined.

(** C5: with [connectgaps], [getCoords] returns exactly one sub-sequence,
    which holds the valid coordinate pairs in their original order. *)
Theorem getCoords_connectgaps V (isNumeric : V → bool) (toNumber : V → number)
    (trace : Trace V) :
  length (trace_lon trace) = length (trace_lat trace) →
  trace_connectgaps trace = true →
  getCoords isNumeric toNumber trace =
    [valid_positions isNumeric toNumber (trace_lon trace) (trace_lat trace)].
Proof.
  intros Hlen Hgaps. unfold getCoords. cbn zeta.
  rewrite (getCoords_loop_connect isNumeric toNumber) by done.
  cbn [cs_coords cs_lineString app]. f_equal.
  unfold getCoordLen.
  change (read_point trace) with (λ i, (trace_lon trace !! i, trace_lat trace !! i)).
  rewrite read_points_zip by done.
  apply omap_position_zip.
Qed.

Lemma getCoords_connectgaps_witness :
  length (trace_lon trace_connected) = length (trace_lat trace_connected)
  ∧ trace_connectgaps trace_connected = true
  ∧ getCoords_numbers trace_connected = [[(1, 1); (2, 2); (3, 3)]]%float.
Proof.
  split; [reflexivity|]. split; [reflexivity|].
  exact (getCoords_connectgaps number isNumeric_number toNumber_number
           trace_connected eq_refl eq_refl).
Defined.

(** C6: [getCoords] returns at least one sub-sequence, the line string being
    filled when the scan ends, for every trace. *)
Theorem getCoords_nonempty V (isNumeric : V → bool) (toNumber : V → number)
    (trace : Trace V) :
  1 ≤ length (getCoords isNumeric toNumber trace)
  ∧ ∃ coords lineString,
      getCoords isNumeric toNumber trace = coords ++ [lineString].
Proof.
  unfold getCoords. cbn zeta. split.
  - rewrite length_app. simpl. lia.
  - eauto.
Qed.

(** ** Value indexing *)

(** C1 at [marker.color = ['a', 'b', 'a']] on three valid points: the index
    [0] recorded for ['a'] is falsy, so its second reading overwrites it
    with [2].  The recorded indices are [{a: 2, b: 1}], the stops are
    [[[2, 'a'], [1, 'b']]] and the features carry the indices [0], [1], [2]. *)
Theorem translate_overwrites_index_zero :
  let out := call trace_aba in
  st_hash out.2 !!! COLOR_PROP = [("a", 2); ("b", 1)]
  ∧ paint (markers out.1) !! "circle-color"
    = Some (PColorStops "circle-size" [(2, "a"); (1, "b")])
  ∧ properties <$> features_of (geojson (markers out.1))
    = [{[COLOR_PROP := GIndex 0]}; {[COLOR_PROP := GIndex 1]};
       {[COLOR_PROP := GIndex 2]}].
Proof. vm_compute. done. Qed.

(** C3, as stated, fails when a value is read at an invalid point:
    with [lon = lat = [NaN, 1]] and [marker.color = ['a', 'b']], the value
    ['a'] occurs at no valid point and is recorded with index [0]. *)
Lemma invalid_point_is_indexed :
  ¬ indexes_valid_points_only isNumeric_number trace_invalid_first ["a"; "b"]
      (st_hash (call trace_invalid_first).2 !!! COLOR_PROP).
Proof.
  intros H. destruct (H "a" 0 eq_refl) as (j & Hj & Hvalid & Hkey).
  destruct j as [|[|j]]; [discriminate Hvalid | discriminate Hkey |].
  vm_compute in Hj. lia.
Qed.

(** C3, amended: for an array-valued marker style attribute of a visible
    trace with markers, the object of the property records a value when it
    is read at any point of the trace, valid or not.  A recorded index is a
    position below [lon.length] at which the array holds the value; every
    value the array holds at such a position is recorded, unless its key
    names a property of [Object.prototype]; and a value first read at a
    position above [0] is recorded with that position. *)
Theorem convert_indexes_every_point V (isNumeric : V → bool)
    (toNumber : V → number) (subTypes_hasLines subTypes_hasMarkers : Trace V → bool)
    (hasColorscale : Trace V → string → bool)
    (makeColorScaleFn : list (number * string) → number → number → string → string)
    (makeBubbleSizeFn : Trace V → string → number)
    (s : Store V) (key : string) (cont : list string) :
  let trace := st_trace s in
  let out := convert isNumeric toNumber subTypes_hasLines subTypes_hasMarkers
               hasColorscale makeColorScaleFn makeBubbleSizeFn s in
  let o := st_hash out.2 !!! key in
  let len := length (trace_lon trace) in
  trace_visible trace = VisTrue →
  subTypes_hasMarkers trace = true →
  style_array (trace_marker trace) key = Some cont →
  (∀ v i, own o v = Some i → i < len ∧ key_at cont i = v)
  ∧ (∀ v i, i < len → key_at cont i = v → inherited v = false →
            is_Some (own o v))
  ∧ (∀ v p, p < len → key_at cont p = v →
            (∀ j, j < p → key_at cont j ≠ v) → 0 < p →
            inherited v = false → own o v = Some p).
Proof.
  intros trace out o len Hvis Hm Harr.
  assert (o = index_object cont len) as ->.
  { subst o out.
    destruct (convert_markers isNumeric toNumber subTypes_hasLines
                subTypes_hasMarkers hasColorscale makeColorScaleFn
                makeBubbleSizeFn s Hvis Hm) as [_ ->].
    destruct (fresh_hash_index isNumeric toNumber (st_trace s))
      as (_ & Hc & Hs).
    cbn zeta in Hc, Hs. unfold style_array in Harr. fold trace in Hc, Hs |- *.
    repeat case_decide; subst; try done.
    - rewrite Hc. destruct (marker_color (trace_marker trace)); [done|].
      by injection Harr as ->.
    - rewrite Hs. destruct (marker_size (trace_marker trace)); [done|].
      by injection Harr as ->. }
  split_and!.
  - intros v i. apply index_object_occurs.
  - intros v i. apply index_object_records.
  - intros v p. apply index_object_first.
Qed.

Lemma convert_indexes_every_point_witness :
  trace_visible trace_invalid_first = VisTrue
  ∧ mode_has "markers" trace_invalid_first = true
  ∧ style_array (trace_marker trace_invalid_first) COLOR_PROP = Some ["a"; "b"]
  ∧ is_Some (own (st_hash (call trace_invalid_first).2 !!! COLOR_PROP) "a")
  ∧ own (st_hash (call trace_invalid_first).2 !!! COLOR_PROP) "b" = Some 1.
Proof.
  split; [reflexivity|]. split; [reflexivity|]. split; [reflexivity|].
  destruct (convert_indexes_every_point number isNumeric_number
              toNumber_number (mode_has "lines") (mode_has "markers")
              no_colorscale no_scale unit_bubble
              {| st_trace := trace_invalid_first; st_hash := ∅ |}
              COLOR_PROP ["a"; "b"] eq_refl eq_refl eq_refl)
    as (_ & Hrecorded & Hfirst).
  split.
  - apply (Hrecorded "a" 0); [vm_compute; lia | reflexivity | reflexivity].
  - apply (Hfirst "b" 1); [vm_compute; lia | reflexivity | | lia | reflexivity].
    intros j Hj. destruct j; [discriminate | lia].
Defined.

(** ** Stop tables *)

(** C2 at [marker.color = [20, 10]] on two valid points: [Object.keys] lists
    the key ['10'] before the key ['20'], [calcMarkerColor] does not sort,
    and the stops of [circle-color] come out with the indices [1], [0];
    the stops of [circle-radius] are sorted by [calcMarkerSize] for every
    trace and every hash. *)
Theorem calcMarkerColor_stops_not_sorted :
  let out := call trace_numeric_colors in
  st_hash out.2 !!! COLOR_PROP = [("20", 0); ("10", 1)]
  ∧ paint (markers out.1) !! "circle-color"
    = Some (PColorStops "circle-size" [(1, "10"); (0, "20")])
  ∧ ¬ ascending
        (stop_indices
           (calcMarkerColor no_colorscale no_scale trace_numeric_colors
              (st_hash out.2)))
  ∧ ∀ V (makeBubbleSizeFn : Trace V → string → number) (trace : Trace V) hash,
      ascending (stop_indices (calcMarkerSize makeBubbleSizeFn trace hash)).
Proof.
  split_and!; [by vm_compute..| |].
  - vm_compute. intros H. inversion H as [|?? _ Hhd]; subst.
    inversion Hhd; subst. lia.
  - intros. apply calcMarkerSize_ascending.
Qed.

(** C8: in the marker layer of a visible trace with markers, a scalar
    [marker.color] is the [circle-color] paint value as it is, a scalar
    [marker.size] gives the [circle-radius] [marker.size / 2], neither being
    a stop spec, and an array-valued attribute gives a stop spec. *)
Theorem marker_paint_scalar_or_stops V (isNumeric : V → bool)
    (toNumber : V → number) (subTypes_hasLines subTypes_hasMarkers : Trace V → bool)
    (hasColorscale : Trace V → string → bool)
    (makeColorScaleFn : list (number * string) → number → number → string → string)
    (makeBubbleSizeFn : Trace V → string → number) (s : Store V) :
  let trace := st_trace s in
  let marker := trace_marker trace in
  let out := convert isNumeric toNumber subTypes_hasLines subTypes_hasMarkers
               hasColorscale makeColorScaleFn makeBubbleSizeFn s in
  let paint := paint (markers out.1) in
  trace_visible trace = VisTrue →
  subTypes_hasMarkers trace = true →
  (∀ color, marker_color marker = Scalar color →
     paint !! "circle-color" = Some (PString color)
     ∧ is_stop_spec (PString color) = false)
  ∧ (∀ size, marker_size marker = Scalar size →
       paint !! "circle-radius" = Some (PNumber (PrimFloat.div size 2))
       ∧ is_stop_spec (PNumber (PrimFloat.div size 2)) = false)
  ∧ (isArray (marker_color marker) = true →
       ∃ p, paint !! "circle-color" = Some p ∧ is_stop_spec p = true)
  ∧ (isArray (marker_size marker) = true →
       ∃ p, paint !! "circle-radius" = Some p ∧ is_stop_spec p = true).
Proof.
  intros trace marker out paint0 Hvis Hm. subst paint0 out.
  destruct (convert_markers isNumeric toNumber subTypes_hasLines
              subTypes_hasMarkers hasColorscale makeColorScaleFn
              makeBubbleSizeFn s Hvis Hm) as [-> _].
  cbn [paint]. fold trace.
  rewrite lookup_insert_eq, lookup_insert_ne, lookup_insert_eq by done.
  unfold calcMarkerColor, calcMarkerSize. fold marker.
  split_and!.
  - by intros color ->.
  - by intros size ->.
  - destruct (marker_color marker); [done|]. eauto.
  - destruct (marker_size marker); [done|]. eauto.
Qed.

Lemma marker_paint_scalar_or_stops_witness :
  trace_visible trace_size_10 = VisTrue
  ∧ mode_has "markers" trace_size_10 = true
  ∧ paint (markers (call trace_size_10).1) !! "circle-radius"
    = Some (PNumber 5%float).
Proof.
  split; [reflexivity|]. split; [reflexivity|].
  exact (proj1 (proj1 (proj2 (marker_paint_scalar_or_stops number
                  isNumeric_number toNumber_number (mode_has "lines")
                  (mode_has "markers") no_colorscale no_scale unit_bubble
                  {| st_trace := trace_size_10; st_hash := ∅ |}
                  eq_refl eq_refl)) 10%float eq_refl)).
Defined.

(** C9: when [marker.color] is array-valued, the stop spec that is the
    [circle-color] paint value has the property ['circle-size'], the key of
    the size property and not ['circle-color']. *)
Theorem calcMarkerColor_property_is_size V (isNumeric : V → bool)
    (toNumber : V → number) (subTypes_hasLines subTypes_hasMarkers : Trace V → bool)
    (hasColorscale : Trace V → string → bool)
    (makeColorScaleFn : list (number * string) → number → number → string → string)
    (makeBubbleSizeFn : Trace V → string → number) (s : Store V) :
  let trace := st_trace s in
  let out := convert isNumeric toNumber subTypes_hasLines subTypes_hasMarkers
               hasColorscale makeColorScaleFn makeBubbleSizeFn s in
  trace_visible trace = VisTrue →
  subTypes_hasMarkers trace = true →
  isArray (marker_color (trace_marker trace)) = true →
  (∃ stops,
     paint (markers out.1) !! "circle-color"
     = Some (PColorStops "circle-size" stops)
     ∧ calcMarkerColor hasColorscale makeColorScaleFn trace (st_hash out.2)
       = PColorStops "circle-size" stops)
  ∧ SIZE_PROP = "circle-size" ∧ COLOR_PROP ≠ "circle-size".
Proof.
  intros trace out Hvis Hm Harr. subst out.
  destruct (convert_markers isNumeric toNumber subTypes_hasLines
              subTypes_hasMarkers hasColorscale makeColorScaleFn
              makeBubbleSizeFn s Hvis Hm) as [-> ->].
  cbn [paint]. fold trace.
  rewrite lookup_insert_ne, lookup_insert_eq by done.
  unfold calcMarkerColor.
  destruct (marker_color (trace_marker trace)); [done|].
  split; [eauto | done].
Qed.

Lemma calcMarkerColor_property_is_size_witness :
  trace_visible trace_aba = VisTrue
  ∧ mode_has "markers" trace_aba = true
  ∧ isArray (marker_color (trace_marker trace_aba)) = true
  ∧ ∃ stops, paint (markers (call trace_aba).1) !! "circle-color"
             = Some (PColorStops "circle-size" stops).
Proof.
  split; [reflexivity|]. split; [reflexivity|]. split; [reflexivity|].
  destruct (calcMarkerColor_property_is_size number isNumeric_number
              toNumber_number (mode_has "lines") (mode_has "markers")
              no_colorscale no_scale unit_bubble
              {| st_trace := trace_aba; st_hash := ∅ |}
              eq_refl eq_refl eq_refl) as [(stops & Hpaint & _) _].
  exists stops. exact Hpaint.
Defined.

(** ** Layers *)

(** C7: when [trace.visible] is not [true], the three layers are the hidden
    placeholder: a ['Point'] without coordinates, visibility ['none'] and an
    empty paint, whatever the other attributes are. *)
Theorem convert_hidden V (isNumeric : V → bool)
    (toNumber : V → number) (subTypes_hasLines subTypes_hasMarkers : Trace V → bool)
    (hasColorscale : Trace V → string → bool)
    (makeColorScaleFn : list (number * string) → number → number → string → string)
    (makeBubbleSizeFn : Trace V → string → number) (s : Store V) :
  let out := convert isNumeric toNumber subTypes_hasLines subTypes_hasMarkers
               hasColorscale makeColorScaleFn makeBubbleSizeFn s in
  let hidden := {| geojson := Point [];
                   layout := {| visibility := "none" |};
                   paint := ∅ |} in
  trace_visible (st_trace s) ≠ VisTrue →
  fill out.1 = hidden ∧ lines out.1 = hidden ∧ markers out.1 = hidden.
Proof.
  intros out hidden Hvis. subst out.
  by rewrite convert_not_visible.
Qed.

Lemma convert_hidden_witness :
  trace_visible trace_hidden ≠ VisTrue
  ∧ fill (call trace_hidden).1 = hidden_layer
  ∧ lines (call trace_hidden).1 = hidden_layer
  ∧ markers (call trace_hidden).1 = hidden_layer.
Proof.
  split; [discriminate|].
  apply (convert_hidden number isNumeric_number toNumber_number
           (mode_has "lines") (mode_has "markers") no_colorscale no_scale
           unit_bubble {| st_trace := trace_hidden; st_hash := ∅ |}).
  discriminate.
Defined.

(** C10: a call of [convert] leaves the trace of the store as it was, field
    by field; the store changes in its hash object alone, and the layers do
    not depend on the hash object the store held before the call. *)
Theorem convert_keeps_trace V (isNumeric : V → bool)
    (toNumber : V → number) (subTypes_hasLines subTypes_hasMarkers : Trace V → bool)
    (hasColorscale : Trace V → string → bool)
    (makeColorScaleFn : list (number * string) → number → number → string → string)
    (makeBubbleSizeFn : Trace V → string → number) (s : Store V) :
  let convert := convert isNumeric toNumber subTypes_hasLines
                   subTypes_hasMarkers hasColorscale makeColorScaleFn
                   makeBubbleSizeFn in
  st_trace (convert s).2 = st_trace s
  ∧ (convert s).2 = {| st_trace := st_trace s; st_hash := st_hash (convert s).2 |}
  ∧ ∀ hash, (convert {| st_trace := st_trace s; st_hash := hash |}).1
            = (convert s).1.
Proof.
  cbn zeta. split_and!.
  - apply convert_trace.
  - pose proof (convert_trace isNumeric toNumber subTypes_hasLines
                  subTypes_hasMarkers hasColorscale makeColorScaleFn
                  makeBubbleSizeFn s) as Htrace.
    destruct (convert _ _ _ _ _ _ _ s).2 as [trace' hash']. simpl in *.
    by rewrite Htrace.
  - intros hash. destruct s as [trace hash']. apply convert_hash_fresh.
Qed.

(** * Further properties *)

Lemma omap_cons_app {A B} (f : A → option B) (x : A) (l : list A) :
  omap f (x :: l) = option_list (f x) ++ omap f l.
Proof.
  transitivity (match f x with Some y => y :: omap f l | None => omap f l end);
    [reflexivity|].
  by destruct (f x).
Qed.

(** ** Coordinate assembly *)
Section MoreCoordinateFacts.
Context {V : Type}.
Variable isNumeric : V → bool.
Variable toNumber : V → number.

#[local] Abbreviation getCoords_step := (getCoords_step isNumeric toNumber).
#[local] Abbreviation valid_point := (valid_point isNumeric).
#[local] Abbreviation position := (position isNumeric toNumber).

Lemma position_read_point trace i :
  position (read_point trace i) =
    if valid_point trace i
    then Some (toNumber_elt toNumber (trace_lon trace !! i),
               toNumber_elt toNumber (trace_lat trace !! i))
    else None.
Proof. reflexivity. Qed.

(** No step loses or repeats a position: the closed line strings and the
    open one, end to end, grow by the valid points. *)
Lemma getCoords_loop_concat trace l st :
  let st' := foldl (getCoords_step trace) st l in
  concat (cs_coords st') ++ cs_lineString st' =
    concat (cs_coords st) ++ cs_lineString st
    ++ omap position (read_point trace <$> l).
Proof.
  revert st. induction l as [|i l IH]; intros st.
  { simpl. by rewrite app_nil_r. }
  rewrite fmap_cons, omap_cons_app. cbn [foldl]. cbn zeta in IH |- *.
  rewrite IH. clear IH. rewrite position_read_point.
  destruct (valid_point trace i) eqn:Hv.
  - rewrite (getCoords_step_valid _ _ _ _ _ Hv). cbn [cs_coords cs_lineString].
    simpl. by rewrite <- !app_assoc.
  - rewrite (getCoords_step_gap _ _ _ _ _ Hv). simpl option_list.
    destruct (negb (trace_connectgaps trace) && open_run st); [|done].
    cbn [cs_coords cs_lineString]. rewrite concat_app. simpl.
    by rewrite !app_nil_r, <- !app_assoc.
Qed.

(** A line string is closed only when it holds a position. *)
Lemma getCoords_loop_closed trace l st :
  Forall (λ lineString, lineString ≠ []) (cs_coords st) →
  Forall (λ lineString, lineString ≠ [])
    (cs_coords (foldl (getCoords_step trace) st l)).
Proof.
  revert st. induction l as [|i l IH]; intros st Hst; [done|].
  cbn [foldl]. apply IH.
  destruct (valid_point trace i) eqn:Hv.
  - by rewrite (getCoords_step_valid _ _ _ _ _ Hv).
  - rewrite (getCoords_step_gap _ _ _ _ _ Hv).
    destruct (negb (trace_connectgaps trace)); [|done].
    unfold open_run. simpl. case_bool_decide as Hlen; [|done].
    cbn [cs_coords]. apply Forall_app. split; [done|].
    apply Forall_singleton. intros Hnil. rewrite Hnil in Hlen. simpl in Hlen. lia.
Qed.

(** Valid points alone never close a line string. *)
Lemma getCoords_loop_all_valid trace l st :
  Forall (λ i, valid_point trace i = true) l →
  foldl (getCoords_step trace) st l =
    {| cs_coords := cs_coords st;
       cs_lineString :=
         cs_lineString st ++ omap position (read_point trace <$> l) |}.
Proof.
  intros Hall. revert st. induction Hall as [|i l Hv _ IH]; intros st.
  { simpl. rewrite app_nil_r. by destruct st. }
  rewrite fmap_cons. cbn [foldl]. rewrite IH.
  rewrite (getCoords_step_valid _ _ _ _ _ Hv). cbn [cs_coords cs_lineString].
  f_equal. rewrite <- app_assoc. f_equal.
  by rewrite omap_cons_app, position_read_point, Hv.
Qed.
End MoreCoordinateFacts.

Lemma getCoords_flattened V (isNumeric : V → bool) (toNumber : V → number)
    (trace : Trace V) :
  length (trace_lon trace) = length (trace_lat trace) →
  concat (getCoords isNumeric toNumber trace) =
    valid_positions isNumeric toNumber (trace_lon trace) (trace_lat trace).
Proof.
  intros Hlen. unfold getCoords. cbn zeta.
  rewrite concat_app. simpl. rewrite app_nil_r.
  rewrite (getCoords_loop_concat isNumeric toNumber). simpl.
  unfold getCoordLen.
  change (read_point trace) with (λ i, (trace_lon trace !! i, trace_lat trace !! i)).
  rewrite read_points_zip by done.
  apply omap_position_zip.
Qed.

(** X1: whatever [connectgaps] is, the sub-sequences of [getCoords] laid end
    to end are the valid coordinate pairs of the trace in their original
    order: no valid point is lost, repeated or moved. *)
Theorem getCoords_concat V (isNumeric : V → bool) (toNumber : V → number)
    (trace : Trace V) :
  length (trace_lon trace) = length (trace_lat trace) →
  concat (getCoords isNumeric toNumber trace) =
    valid_positions isNumeric toNumber (trace_lon trace) (trace_lat trace).
Proof. apply getCoords_flattened. Qed.

Lemma getCoords_concat_witness :
  length (trace_lon trace_gapped) = length (trace_lat trace_gapped)
  ∧ concat (getCoords_numbers trace_gapped) = [(1, 1); (2, 2); (3, 3)]%float.
Proof.
  split; [reflexivity|].
  exact (getCoords_concat number isNumeric_number toNumber_number
           trace_gapped eq_refl).
Defined.

(** X2: every sub-sequence of [getCoords] but the last holds at least one
    position: a line string is closed only when it is not empty, so
    consecutive gaps and a leading gap add nothing. *)
Theorem getCoords_inner_nonempty V (isNumeric : V → bool)
    (toNumber : V → number) (trace : Trace V) (i : nat)
    (lineString : list Position) :
  getCoords isNumeric toNumber trace !! i = Some lineString →
  S i < length (getCoords isNumeric toNumber trace) →
  lineString ≠ [].
Proof.
  unfold getCoords. cbn zeta. rewrite length_app. simpl.
  intros Hlook Hi. rewrite lookup_app_l in Hlook by lia.
  pose proof (getCoords_loop_closed isNumeric toNumber trace
                (seq 0 (getCoordLen trace))
                {| cs_coords := []; cs_lineString := [] |}
                (Forall_nil_2 _)) as Hclosed.
  rewrite Forall_lookup in Hclosed. by apply (Hclosed i).
Qed.

Lemma getCoords_inner_nonempty_witness :
  getCoords_numbers trace_gapped !! 0 = Some [(1, 1); (2, 2)]%float
  ∧ S 0 < length (getCoords_numbers trace_gapped)
  ∧ [(1, 1); (2, 2)]%float ≠ ([] : list Position).
Proof.
  split; [reflexivity|]. split; [vm_compute; lia|].
  apply (getCoords_inner_nonempty number isNumeric_number toNumber_number
           trace_gapped 0); [reflexivity | vm_compute; lia].
Defined.

(** X3: when every point of the trace is valid, [connectgaps] has no effect:
    [getCoords] returns the one sub-sequence of all the points. *)
Theorem getCoords_all_valid V (isNumeric : V → bool) (toNumber : V → number)
    (trace : Trace V) :
  length (trace_lon trace) = length (trace_lat trace) →
  (∀ i, i < length (trace_lon trace) → valid_point isNumeric trace i = true) →
  getCoords isNumeric toNumber trace =
    [valid_positions isNumeric toNumber (trace_lon trace) (trace_lat trace)].
Proof.
  intros Hlen Hall. unfold getCoords. cbn zeta.
  rewrite (getCoords_loop_all_valid isNumeric toNumber).
  2: { apply Forall_forall. intros i Hi. apply Hall.
       apply elem_of_seq in Hi. unfold getCoordLen in Hi. lia. }
  cbn [cs_coords cs_lineString app]. f_equal.
  unfold getCoordLen.
  change (read_point trace) with (λ i, (trace_lon trace !! i, trace_lat trace !! i)).
  rewrite read_points_zip by done.
  apply omap_position_zip.
Qed.

Lemma getCoords_all_valid_witness :
  length (trace_lon trace_aba) = length (trace_lat trace_aba)
  ∧ getCoords_numbers trace_aba = [[(1, 1); (2, 2); (3, 3)]]%float.
Proof.
  split; [reflexivity|].
  apply (getCoords_all_valid number isNumeric_number toNumber_number
           trace_aba eq_refl).
  intros i Hi. vm_compute in Hi.
  destruct i as [|[|[|i]]]; [reflexivity..|lia].
Defined.

(** ** Features *)

Lemma style_object_S {A} (a : arrayOk A) n :
  style_object a (S n) = style_index a (style_object a n) n.
Proof. unfold style_object. by rewrite seq_S, foldl_snoc. Qed.

Lemma style_object_scalar {A} (x : A) n : style_object (Scalar x) n = [].
Proof.
  induction n as [|n IH]; [done|]. by rewrite style_object_S, IH.
Qed.

Lemma style_object_array {A} cont n :
  style_object (PerPoint cont : arrayOk A) n = index_object cont n.
Proof.
  induction n as [|n IH]; [done|].
  by rewrite style_object_S, index_object_S, IH.
Qed.

Section FeatureFacts.
Context {V : Type}.
Variable isNumeric : V → bool.
Variable toNumber : V → number.

#[local] Abbreviation makeMarkerGeoJSON_step :=
  (makeMarkerGeoJSON_step isNumeric toNumber).
#[local] Abbreviation makeMarkerGeoJSON := (makeMarkerGeoJSON isNumeric toNumber).
#[local] Abbreviation feature_at := (feature_at isNumeric toNumber).

Lemma makeMarkerGeoJSON_step_feature trace features i (s : Store V) :
  let marker := trace_marker trace in
  st_hash s !!! COLOR_PROP = style_object (marker_color marker) i →
  st_hash s !!! SIZE_PROP = style_object (marker_size marker) i →
  (makeMarkerGeoJSON_step trace features i s).1 =
    features ++ option_list (feature_at trace i).
Proof.
  intros marker Hc Hs. unfold makeMarkerGeoJSON_step. cbn zeta.
  rewrite !run_bind, run_ret. cbn [fst].
  set (m1 := match marker_color (trace_marker trace) with
             | Scalar _ => mret ∅
             | PerPoint color => translate ∅ COLOR_PROP color i
             end).
  assert ((m1 s).1 =
            match marker_color marker with
            | PerPoint color => <[COLOR_PROP := index_at color i]> ∅
            | Scalar _ => ∅
            end
          ∧ st_hash (m1 s).2 !!! SIZE_PROP = st_hash s !!! SIZE_PROP)
    as [Hp1 Hs1].
  { subst m1 marker.
    destruct (marker_color (trace_marker trace)) as [c|color]; [done|].
    rewrite translate_props, Hc, style_object_array.
    unfold index_at. rewrite index_object_S. split; [done|].
    destruct (translate_store ∅ COLOR_PROP color i s) as (_ & _ & Ho).
    apply Ho. by intros ?. }
  destruct (m1 s) as [props s1]. cbn [fst snd] in *.
  assert ((match marker_size (trace_marker trace) with
           | Scalar _ => mret props
           | PerPoint size => translate props SIZE_PROP size i
           end s1).1 = props_at marker i) as ->.
  { unfold props_at. fold marker. rewrite <- Hp1. subst marker.
    destruct (marker_size (trace_marker trace)) as [z|size]; [done|].
    rewrite translate_props, Hs1, Hs, style_object_array.
    unfold index_at. by rewrite index_object_S. }
  unfold feature_at. cbn zeta. fold marker.
  destruct (checkLonLat _ _ _); simpl; [done|]. by rewrite app_nil_r.
Qed.
Lemma makeMarkerGeoJSON_loop_features trace k a features (s : Store V) :
  let marker := trace_marker trace in
  st_hash s !!! COLOR_PROP = style_object (marker_color marker) a →
  st_hash s !!! SIZE_PROP = style_object (marker_size marker) a →
  (foldlM (makeMarkerGeoJSON_step trace) features (seq a k) s).1 =
    features ++ omap (feature_at trace) (seq a k).
Proof.
  cbn zeta. revert a features s.
  induction k as [|k IH]; intros a features s Hc Hs.
  { simpl. by rewrite app_nil_r. }
  cbn [seq foldlM]. rewrite run_bind, omap_cons_app, app_assoc.
  rewrite <- (makeMarkerGeoJSON_step_feature trace features a s Hc Hs).
  destruct (makeMarkerGeoJSON_step_store isNumeric toNumber trace features a s)
    as (_ & Hc' & Hs').
  cbn zeta in Hc', Hs'. apply IH.
  - by rewrite Hc', Hc, style_object_S.
  - by rewrite Hs', Hs, style_object_S.
Qed.

(** The feature collection in closed form: the features of the valid points,
    in the order of the points. *)
Lemma makeMarkerGeoJSON_features (trace : Trace V) :
  (makeMarkerGeoJSON (fresh_hash_store trace)).1 =
    FeatureCollection (omap (feature_at trace) (seq 0 (getCoordLen trace))).
Proof.
  unfold makeMarkerGeoJSON. rewrite !run_bind, run_ret.
  unfold readTrace. cbn [fst snd st_trace fresh_hash_store].
  f_equal.
  by rewrite makeMarkerGeoJSON_loop_features.
Qed.

Lemma feature_at_coordinates trace (l : list nat) :
  geometry_coordinates <$> omap (feature_at trace) l =
    omap (position isNumeric toNumber) (read_point trace <$> l).
Proof.
  induction l as [|i l IH]; [done|].
  rewrite fmap_cons, !omap_cons_app, fmap_app, IH. f_equal.
  rewrite position_read_point. unfold feature_at, valid_point. cbn zeta.
  by destruct (checkLonLat _ _ _).
Qed.
End FeatureFacts.

(** ** Recorded entries and stops *)

Lemma assign_new o k i : own o k = None → assign o k i = o ++ [(k, i)].
Proof.
  induction o as [|[k' j] o IH]; simpl; [done|].
  destruct (String.eqb k' k); [done|]. intros Ho. by rewrite IH.
Qed.

Lemma assign_keys o k i :
  (assign o k i).*1 = if own o k is Some _ then o.*1 else o.*1 ++ [k].
Proof.
  induction o as [|[k' j] o IH]; [done|]. cbn [assign own].
  destruct (String.eqb k' k) eqn:E; [done|].
  rewrite !fmap_cons, IH. by destruct (own o k).
Qed.

Lemma assign_NoDup o k i : NoDup o.*1 → NoDup (assign o k i).*1.
Proof.
  intros Hnd. rewrite assign_keys.
  destruct (own o k) eqn:Ho; [done|].
  apply NoDup_app. split_and!; [done| |apply NoDup_singleton].
  intros k' Hk' ->%list_elem_of_singleton.
  apply own_is_Some in Hk'. rewrite Ho in Hk'. by destruct Hk'.
Qed.

Lemma index_object_NoDup cont n : NoDup (index_object cont n).*1.
Proof.
  induction n as [|n IH]; [constructor|].
  rewrite index_object_S. unfold translate_object. cbn zeta.
  destruct (falsy _); [by apply assign_NoDup | done].
Qed.

Lemma own_elem_of o k i : NoDup o.*1 → (k, i) ∈ o → own o k = Some i.
Proof.
  induction o as [|[k' j] o IH]; intros Hnd Hin.
  { by apply elem_of_nil in Hin. }
  apply NoDup_cons in Hnd as [Hk' Hnd].
  apply elem_of_cons in Hin as [[= <- <-]|Hin]; simpl.
  - by rewrite String.eqb_refl.
  - destruct (String.eqb k' k) eqn:E; [|by apply IH].
    apply String.eqb_eq in E. subst k'.
    destruct Hk'. apply list_elem_of_fmap. by exists (k, i).
Qed.

(** [Object.keys] lists every own key once. *)
Lemma Object_keys_Permutation o : Object_keys o ≡ₚ o.*1.
Proof.
  unfold Object_keys. cbn zeta. rewrite merge_sort_Permutation.
  induction (o.*1) as [|k ks IH]; [done|].
  rewrite omap_cons_app, fmap_app, filter_cons.
  destruct (array_index k) as [n|]; simpl.
  - by rewrite IH.
  - by rewrite <- Permutation_middle, IH.
Qed.

(** Without an array index among the keys, [Object.keys] lists them in
    creation order. *)
Lemma Object_keys_creation_order o :
  Forall (λ k, array_index k = None) o.*1 → Object_keys o = o.*1.
Proof.
  unfold Object_keys. cbn zeta. intros Hall.
  assert (omap (λ k, (λ n, (n, k)) <$> array_index k) o.*1 = []) as ->.
  { induction Hall as [|k ks Hk _ IH]; [done|].
    by rewrite omap_cons_app, Hk, IH. }
  simpl. induction Hall as [|k ks Hk _ IH]; [done|].
  by rewrite filter_cons, decide_True, IH by done.
Qed.

(** Reading the recorded index of every key gives back the entries. *)
Lemma index_of_entries {A} (fn : string → A) o :
  NoDup o.*1 →
  (λ val, (index_of o val, fn val)) <$> o.*1 = stop_of fn <$> o.
Proof.
  intros Hnd.
  assert (∀ kv, kv ∈ o → (index_of o kv.1, fn kv.1) = stop_of fn kv) as Hown.
  { intros [k i] Hin. unfold index_of, stop_of. cbn [fst snd].
    by rewrite (own_elem_of o k i). }
  rewrite <- list_fmap_compose. apply list_fmap_ext.
  intros j kv Hj. apply Hown. by apply list_elem_of_lookup_2 in Hj.
Qed.

Lemma entries_indices_NoDup (o : ValueIndex) (key : nat → string) :
  NoDup o.*1 → (∀ k i, (k, i) ∈ o → key i = k) → NoDup o.*2.
Proof.
  induction o as [|[k i] o IH]; intros Hnd Hocc; [constructor|].
  change (NoDup (k :: o.*1)) in Hnd. change (NoDup (i :: o.*2)).
  apply NoDup_cons in Hnd as [Hk Hnd].
  apply NoDup_cons. split.
  - intros Hi. apply list_elem_of_fmap in Hi as ([k' i'] & Heq & Hin).
    simpl in Heq. subst i'. destruct Hk.
    apply list_elem_of_fmap. exists (k', i). split; [|done]. simpl.
    transitivity (key i).
    + symmetry. apply Hocc. left.
    + apply Hocc. by right.
  - apply IH; [done|]. intros ???. apply Hocc. by right.
Qed.

(** Two keys never share an index: the index is a position of the array,
    and the array holds one value there. *)
Lemma index_object_indices_NoDup cont n : NoDup (index_object cont n).*2.
Proof.
  pose proof (index_object_NoDup cont n) as Hnd.
  apply (entries_indices_NoDup _ (key_at cont)); [done|].
  intros k i Hin. apply own_elem_of in Hin; [|done].
  by apply index_object_occurs in Hin as [_ ?].
Qed.



(** Under the same condition the indices are recorded in ascending order. *)
Lemma index_object_ascending cont len n :
  first_value_unique cont len → n ≤ len →
  StronglySorted lt (index_object cont n).*2
  ∧ Forall (λ i, i < n) (index_object cont n).*2.
Proof.
  intros Huniq Hn. induction n as [|n IH]; [by split; constructor|].
  destruct IH as [Hsorted Hbound]; [lia|].
  assert (Forall (λ i, i < S n) (index_object cont n).*2) as Hbound'.
  { eapply Forall_impl; [done|]. simpl. lia. }
  rewrite index_object_S. unfold translate_object, get. cbn zeta.
  destruct (own (index_object cont n) (key_at cont n)) as [i|] eqn:Ho; simpl.
  - case_bool_decide as Hz; [|done]. subst i.
    apply index_object_occurs in Ho as [Hpos H0].
    destruct (Huniq n); [lia..|congruence].
  - destruct (inherited (key_at cont n)); simpl; [done|].
    rewrite assign_new, fmap_app by done. simpl. split.
    + apply StronglySorted_app_2; [|done|by repeat constructor].
      intros i j Hi ->%list_elem_of_singleton.
      rewrite Forall_forall in Hbound. by apply Hbound.
    + apply Forall_app. split; [done|]. apply Forall_singleton. lia.
Qed.

Lemma StronglySorted_lt_le (l : list nat) :
  StronglySorted lt l → Sorted le l.
Proof.
  intros H. apply StronglySorted_Sorted.
  induction H as [|x l Hl IH Hx]; constructor; [done|].
  eapply Forall_impl; [done|]. simpl. lia.
Qed.

Lemma Sorted_le_NoDup_lt (l : list nat) :
  Sorted le l → NoDup l → StronglySorted lt l.
Proof.
  intros Hs Hnd. apply Sorted_StronglySorted in Hs; [|apply _].
  induction Hs as [|x l Hl IH Hx]; [constructor|].
  apply NoDup_cons in Hnd as [Hx' Hnd].
  constructor; [by apply IH|].
  apply Forall_forall. intros y Hy.
  rewrite Forall_forall in Hx. specialize (Hx y Hy).
  destruct (decide (x = y)) as [->|]; [done | lia].
Qed.

(** ** Layers *)

Lemma props_at_lookup marker n key :
  props_at marker n !! key =
    (λ cont, index_at cont n) <$> style_array marker key.
Proof.
  unfold props_at, style_array. cbn zeta.
  destruct (decide (key = COLOR_PROP)) as [->|Hc].
  - destruct (marker_color marker), (marker_size marker); simpl;
      by rewrite ?lookup_insert_ne, ?lookup_insert_eq, ?lookup_empty by done.
  - destruct (decide (key = SIZE_PROP)) as [->|Hs].
    + destruct (marker_color marker), (marker_size marker); simpl;
        by rewrite ?lookup_insert_eq, ?lookup_insert_ne, ?lookup_empty by done.
    + destruct (marker_color marker), (marker_size marker); simpl;
        by rewrite ?lookup_insert_ne, ?lookup_empty by done.
Qed.

Lemma style_array_object marker key cont n :
  style_array marker key = Some cont →
  (if decide (key = COLOR_PROP) then style_object (marker_color marker) n
   else style_object (marker_size marker) n) = index_object cont n.
Proof.
  unfold style_array. case_decide.
  - destruct (marker_color marker); [done|]. intros [= ->].
    apply style_object_array.
  - case_decide; [|done].
    destruct (marker_size marker); [done|]. intros [= ->].
    apply style_object_array.
Qed.

Section LayerFacts.
Context {V : Type}.
Variable isNumeric : V → bool.
Variable toNumber : V → number.
Variable subTypes_hasLines subTypes_hasMarkers : Trace V → bool.
Variable hasColorscale : Trace V → string → bool.
Variable makeColorScaleFn :
  list (number * string) → number → number → string → string.
Variable makeBubbleSizeFn : Trace V → string → number.

#[local] Abbreviation getCoords := (getCoords isNumeric toNumber).
#[local] Abbreviation feature_at := (feature_at isNumeric toNumber).
#[local] Abbreviation calcMarkerColor :=
  (calcMarkerColor hasColorscale makeColorScaleFn).
#[local] Abbreviation calcMarkerSize := (calcMarkerSize makeBubbleSizeFn).
#[local] Abbreviation convert :=
  (convert isNumeric toNumber subTypes_hasLines subTypes_hasMarkers
     hasColorscale makeColorScaleFn makeBubbleSizeFn).

(** The fill and line layers, whatever the marker branch does. *)
Lemma convert_fill_lines (s : Store V) :
  let trace := st_trace s in
  let isVisible := bool_decide (trace_visible trace = VisTrue) in
  fill (convert s).1 =
    (if isVisible && negb (String.eqb (trace_fill trace) "none") then
       {| geojson := Polygon (getCoords trace);
          layout := {| visibility := "visible" |};
          paint := <["fill-color" := PString (trace_fillcolor trace)]> ∅ |}
     else hidden_layer)
  ∧ lines (convert s).1 =
    (if isVisible && subTypes_hasLines trace then
       {| geojson := MultiLineString (getCoords trace);
          layout := {| visibility := "visible" |};
          paint :=
            <["line-opacity" := PNumber (trace_opacity trace)]>
              (<["line-color" := PString (line_color (trace_line trace))]>
                 (<["line-width" := PNumber (line_width (trace_line trace))]>
                    ∅)) |}
     else hidden_layer).
Proof.
  cbn zeta. unfold convert. rewrite run_bind. unfold readTrace.
  cbn [fst snd]. cbn zeta. rewrite run_bind, run_ret. cbn [fst fill lines].
  split.
  - by destruct (_ && negb _).
  - by destruct (_ && subTypes_hasLines _).
Qed.

(** The marker layer of a visible trace with markers, in closed form. *)
Lemma convert_marker_layer (s : Store V) :
  let trace := st_trace s in
  let marker := trace_marker trace in
  let len := length (trace_lon trace) in
  let out := convert s in
  trace_visible trace = VisTrue →
  subTypes_hasMarkers trace = true →
  geojson (markers out.1) = FeatureCollection (omap (feature_at trace) (seq 0 len))
  ∧ st_hash out.2 !!! COLOR_PROP = style_object (marker_color marker) len
  ∧ st_hash out.2 !!! SIZE_PROP = style_object (marker_size marker) len
  ∧ paint (markers out.1) !! "circle-color"
    = Some (calcMarkerColor trace (st_hash out.2))
  ∧ paint (markers out.1) !! "circle-radius"
    = Some (calcMarkerSize trace (st_hash out.2)).
Proof.
  intros trace marker len out Hvis Hm. subst out.
  destruct (convert_markers isNumeric toNumber subTypes_hasLines
              subTypes_hasMarkers hasColorscale makeColorScaleFn
              makeBubbleSizeFn s Hvis Hm) as [-> ->].
  fold trace. cbn [geojson paint].
  destruct (fresh_hash_index isNumeric toNumber trace) as (_ & Hc & Hs).
  split_and!.
  - apply makeMarkerGeoJSON_features.
  - exact Hc.
  - exact Hs.
  - by rewrite lookup_insert_ne, lookup_insert_eq by done.
  - by rewrite lookup_insert_eq.
Qed.

(** The object of an array-valued style property when [convert] returns. *)
Lemma convert_style_object (s : Store V) key cont :
  let trace := st_trace s in
  trace_visible trace = VisTrue →
  subTypes_hasMarkers trace = true →
  style_array (trace_marker trace) key = Some cont →
  st_hash (convert s).2 !!! key = index_object cont (length (trace_lon trace)).
Proof.
  intros trace Hvis Hm Harr.
  destruct (convert_marker_layer s Hvis Hm) as (_ & Hc & Hs & _).
  rewrite <- (style_array_object _ _ _ _ Harr).
  unfold style_array in Harr. case_decide; subst; [done|].
  by case_decide; subst.
Qed.
End LayerFacts.

(** X4: a layer is shown exactly when the trace is visible and has the
    layer's aspect: the fill layer when [trace.fill] is not ['none'], the
    line layer when the trace has lines, the marker layer when it has
    markers; a layer that is not shown is the hidden placeholder. *)
Theorem convert_layer_visibility V (isNumeric : V → bool)
    (toNumber : V → number) (subTypes_hasLines subTypes_hasMarkers : Trace V → bool)
    (hasColorscale : Trace V → string → bool)
    (makeColorScaleFn : list (number * string) → number → number → string → string)
    (makeBubbleSizeFn : Trace V → string → number) (s : Store V) :
  let trace := st_trace s in
  let out := convert isNumeric toNumber subTypes_hasLines subTypes_hasMarkers
               hasColorscale makeColorScaleFn makeBubbleSizeFn s in
  let shown (layer : Layer) := visibility (layout layer) = "visible" in
  (shown (fill out.1) ↔ trace_visible trace = VisTrue ∧ trace_fill trace ≠ "none")
  ∧ (shown (lines out.1) ↔
       trace_visible trace = VisTrue ∧ subTypes_hasLines trace = true)
  ∧ (shown (markers out.1) ↔
       trace_visible trace = VisTrue ∧ subTypes_hasMarkers trace = true)
  ∧ (shown (fill out.1) ∨ fill out.1 = hidden_layer)
  ∧ (shown (lines out.1) ∨ lines out.1 = hidden_layer)
  ∧ (shown (markers out.1) ∨ markers out.1 = hidden_layer).
Proof.
  intros trace out shown. subst out shown. cbn beta.
  destruct (convert_fill_lines isNumeric toNumber subTypes_hasLines
              subTypes_hasMarkers hasColorscale makeColorScaleFn
              makeBubbleSizeFn s) as [Hfill Hlines].
  cbn zeta in Hfill, Hlines. fold trace in Hfill, Hlines.
  assert (let m := markers (convert isNumeric toNumber subTypes_hasLines
                     subTypes_hasMarkers hasColorscale makeColorScaleFn
                     makeBubbleSizeFn s).1 in
          (visibility (layout m) = "visible" ↔
             trace_visible trace = VisTrue ∧ subTypes_hasMarkers trace = true)
          ∧ (visibility (layout m) = "visible" ∨ m = hidden_layer))
    as [Hmarkers Hmarkers'].
  { cbn zeta. destruct (decide (trace_visible trace = VisTrue)) as [Hvis|Hvis].
    - destruct (subTypes_hasMarkers trace) eqn:Hm.
      + destruct (convert_markers isNumeric toNumber subTypes_hasLines
                    subTypes_hasMarkers hasColorscale makeColorScaleFn
                    makeBubbleSizeFn s Hvis Hm) as [-> _].
        simpl. split; [done | by left].
      + destruct (convert_no_markers isNumeric toNumber subTypes_hasLines
                    subTypes_hasMarkers hasColorscale makeColorScaleFn
                    makeBubbleSizeFn s Hm) as [-> _].
        simpl. split; [|by right]. split; [done | by intros [_ ?]].
    - rewrite convert_not_visible by done. simpl.
      split; [|by right]. split; [done | by intros [? _]]. }
  rewrite Hfill, Hlines. clear Hfill Hlines.
  split_and!; [| |done| | |done].
  - case_bool_decide as Hvis; simpl.
    + destruct (String.eqb (trace_fill trace) "none") eqn:E; simpl.
      * apply String.eqb_eq in E. split; [done | by intros [_ ?]].
      * apply String.eqb_neq in E. done.
    + split; [done | by intros [? _]].
  - case_bool_decide as Hvis; simpl.
    + destruct (subTypes_hasLines trace); simpl; [done|].
      split; [done | by intros [_ ?]].
    + split; [done | by intros [? _]].
  - destruct (_ && negb _); [by left | by right].
  - destruct (_ && subTypes_hasLines _); [by left | by right].
Qed.

(** X5: for a visible trace, the fill layer is the polygon and the line
    layer the multi-line string of the same coordinates, those [getCoords]
    returns; the fill paint is the fill color alone and the line paint the
    width and color of the line with the opacity of the trace. *)
Theorem convert_fill_and_lines V (isNumeric : V → bool)
    (toNumber : V → number) (subTypes_hasLines subTypes_hasMarkers : Trace V → bool)
    (hasColorscale : Trace V → string → bool)
    (makeColorScaleFn : list (number * string) → number → number → string → string)
    (makeBubbleSizeFn : Trace V → string → number) (s : Store V) :
  let trace := st_trace s in
  let out := convert isNumeric toNumber subTypes_hasLines subTypes_hasMarkers
               hasColorscale makeColorScaleFn makeBubbleSizeFn s in
  let coords := getCoords isNumeric toNumber trace in
  trace_visible trace = VisTrue →
  (trace_fill trace ≠ "none" →
     fill out.1 =
       {| geojson := Polygon coords;
          layout := {| visibility := "visible" |};
          paint := {[ "fill-color" := PString (trace_fillcolor trace) ]} |})
  ∧ (subTypes_hasLines trace = true →
       lines out.1 =
         {| geojson := MultiLineString coords;
            layout := {| visibility := "visible" |};
            paint :=
              {[ "line-width" := PNumber (line_width (trace_line trace));
                 "line-color" := PString (line_color (trace_line trace));
                 "line-opacity" := PNumber (trace_opacity trace) ]} |}).
Proof.
  intros trace out coords Hvis. subst out coords.
  destruct (convert_fill_lines isNumeric toNumber subTypes_hasLines
              subTypes_hasMarkers hasColorscale makeColorScaleFn
              makeBubbleSizeFn s) as [-> ->].
  fold trace. rewrite bool_decide_eq_true_2 by done. cbn [andb]. split.
  - intros Hfill. apply String.eqb_neq in Hfill. rewrite Hfill. simpl.
    by rewrite insert_empty.
  - intros ->. by f_equal.
Qed.

Lemma convert_fill_and_lines_witness :
  trace_visible trace_filled = VisTrue
  ∧ trace_fill trace_filled ≠ "none"
  ∧ geojson (fill (call trace_filled).1)
    = Polygon [[(1, 1); (2, 2)]; [(3, 3)]]%float
  ∧ geojson (lines (call trace_filled).1)
    = MultiLineString [[(1, 1); (2, 2)]; [(3, 3)]]%float.
Proof.
  split; [reflexivity|]. split; [discriminate|].
  destruct (convert_fill_and_lines number isNumeric_number toNumber_number
              (mode_has "lines") (mode_has "markers") no_colorscale no_scale
              unit_bubble {| st_trace := trace_filled; st_hash := ∅ |}
              eq_refl) as [Hfill Hlines].
  split.
  - exact (f_equal geojson (Hfill ltac:(discriminate))).
  - exact (f_equal geojson (Hlines eq_refl)).
Defined.

(** ** Marker features and stops *)

(** X6: the marker layer of a visible trace with markers holds one feature
    per valid point, in the order of the points, at the coerced coordinates
    of the point; these are the positions [getCoords] returns, laid end to
    end, whatever [connectgaps] is. *)
Theorem marker_features_are_valid_points V (isNumeric : V → bool)
    (toNumber : V → number) (subTypes_hasLines subTypes_hasMarkers : Trace V → bool)
    (hasColorscale : Trace V → string → bool)
    (makeColorScaleFn : list (number * string) → number → number → string → string)
    (makeBubbleSizeFn : Trace V → string → number) (s : Store V) :
  let trace := st_trace s in
  let out := convert isNumeric toNumber subTypes_hasLines subTypes_hasMarkers
               hasColorscale makeColorScaleFn makeBubbleSizeFn s in
  let features := features_of (geojson (markers out.1)) in
  trace_visible trace = VisTrue →
  subTypes_hasMarkers trace = true →
  length (trace_lon trace) = length (trace_lat trace) →
  geometry_coordinates <$> features =
    valid_positions isNumeric toNumber (trace_lon trace) (trace_lat trace)
  ∧ geometry_coordinates <$> features
    = concat (getCoords isNumeric toNumber trace).
Proof.
  intros trace out features Hvis Hm Hlen. subst features out.
  destruct (convert_marker_layer isNumeric toNumber subTypes_hasLines
              subTypes_hasMarkers hasColorscale makeColorScaleFn
              makeBubbleSizeFn s Hvis Hm) as (-> & _).
  fold trace. cbn [features_of].
  rewrite getCoords_flattened by done.
  rewrite feature_at_coordinates.
  change (read_point trace) with (λ i, (trace_lon trace !! i, trace_lat trace !! i)).
  rewrite read_points_zip by done.
  by rewrite omap_position_zip.
Qed.

Lemma marker_features_are_valid_points_witness :
  trace_visible trace_abc = VisTrue
  ∧ mode_has "markers" trace_abc = true
  ∧ length (trace_lon trace_abc) = length (trace_lat trace_abc)
  ∧ geometry_coordinates <$> features_of (geojson (markers (call trace_abc).1))
    = [(1, 1); (3, 3)]%float.
Proof.
  split; [reflexivity|]. split; [reflexivity|]. split; [reflexivity|].
  exact (proj1 (marker_features_are_valid_points number isNumeric_number
                  toNumber_number (mode_has "lines") (mode_has "markers")
                  no_colorscale no_scale unit_bubble
                  {| st_trace := trace_abc; st_hash := ∅ |}
                  eq_refl eq_refl eq_refl)).
Defined.

(** X7: the features are those of the valid points with the properties
    [translate] gave the point.  For an array-valued style attribute the
    property of point [n] is the index of a point at or before [n] at which
    the array holds the same value as at [n] (unless the key names a
    property of [Object.prototype]); a scalar attribute adds no property. *)
Theorem marker_feature_properties V (isNumeric : V → bool)
    (toNumber : V → number) (subTypes_hasLines subTypes_hasMarkers : Trace V → bool)
    (hasColorscale : Trace V → string → bool)
    (makeColorScaleFn : list (number * string) → number → number → string → string)
    (makeBubbleSizeFn : Trace V → string → number) (s : Store V) :
  let trace := st_trace s in
  let marker := trace_marker trace in
  let out := convert isNumeric toNumber subTypes_hasLines subTypes_hasMarkers
               hasColorscale makeColorScaleFn makeBubbleSizeFn s in
  trace_visible trace = VisTrue →
  subTypes_hasMarkers trace = true →
  features_of (geojson (markers out.1))
  = omap (feature_at isNumeric toNumber trace) (seq 0 (length (trace_lon trace)))
  ∧ (∀ n key cont,
       style_array marker key = Some cont →
       inherited (key_at cont n) = false →
       ∃ i, props_at marker n !! key = Some (GIndex i)
            ∧ i ≤ n ∧ key_at cont i = key_at cont n)
  ∧ (∀ n key, style_array marker key = None → props_at marker n !! key = None).
Proof.
  intros trace marker out Hvis Hm. subst out.
  destruct (convert_marker_layer isNumeric toNumber subTypes_hasLines
              subTypes_hasMarkers hasColorscale makeColorScaleFn
              makeBubbleSizeFn s Hvis Hm) as (-> & _).
  split_and!; [done| |].
  - intros n key cont Harr Hinh.
    rewrite props_at_lookup, Harr. simpl. unfold index_at, get.
    destruct (index_object_records cont (S n) (key_at cont n) n)
      as [i Hi]; [lia|done..|].
    rewrite Hi. exists i. split; [done|].
    apply index_object_occurs in Hi as [? ?]. split; [lia|done].
  - intros n key Harr. by rewrite props_at_lookup, Harr.
Qed.

Lemma marker_feature_properties_witness :
  trace_visible trace_aba = VisTrue
  ∧ mode_has "markers" trace_aba = true
  ∧ properties <$> features_of (geojson (markers (call trace_aba).1))
    = [props_at (trace_marker trace_aba) 0; props_at (trace_marker trace_aba) 1;
       props_at (trace_marker trace_aba) 2].
Proof.
  split; [reflexivity|]. split; [reflexivity|].
  exact (f_equal (fmap properties)
           (proj1 (marker_feature_properties number isNumeric_number
                     toNumber_number (mode_has "lines") (mode_has "markers")
                     no_colorscale no_scale unit_bubble
                     {| st_trace := trace_aba; st_hash := ∅ |}
                     eq_refl eq_refl))).
Defined.

(** X8: for an array-valued [marker.color], the [circle-color] stops are,
    up to their order, one stop per recorded value: the index recorded for
    the value with the color of its key; no two stops have the same index. *)
Theorem color_stops_are_recorded_entries V (isNumeric : V → bool)
    (toNumber : V → number) (subTypes_hasLines subTypes_hasMarkers : Trace V → bool)
    (hasColorscale : Trace V → string → bool)
    (makeColorScaleFn : list (number * string) → number → number → string → string)
    (makeBubbleSizeFn : Trace V → string → number) (s : Store V) :
  let trace := st_trace s in
  let out := convert isNumeric toNumber subTypes_hasLines subTypes_hasMarkers
               hasColorscale makeColorScaleFn makeBubbleSizeFn s in
  let recorded := st_hash out.2 !!! COLOR_PROP in
  let colorFn := colorFn_of hasColorscale makeColorScaleFn trace in
  trace_visible trace = VisTrue →
  subTypes_hasMarkers trace = true →
  isArray (marker_color (trace_marker trace)) = true →
  ∃ stops,
    paint (markers out.1) !! "circle-color" = Some (PColorStops SIZE_PROP stops)
    ∧ stops ≡ₚ stop_of colorFn <$> recorded
    ∧ NoDup stops.*1.
Proof.
  intros trace out recorded colorFn Hvis Hm Harr. subst recorded out.
  destruct (marker_color (trace_marker trace)) as [c|cont] eqn:Hcolor; [done|].
  assert (style_array (trace_marker trace) COLOR_PROP = Some cont) as Hstyle.
  { unfold style_array. rewrite decide_True by done. by rewrite Hcolor. }
  pose proof (convert_style_object isNumeric toNumber subTypes_hasLines
                subTypes_hasMarkers hasColorscale makeColorScaleFn
                makeBubbleSizeFn s COLOR_PROP cont Hvis Hm Hstyle) as Ho.
  destruct (convert_marker_layer isNumeric toNumber subTypes_hasLines
              subTypes_hasMarkers hasColorscale makeColorScaleFn
              makeBubbleSizeFn s Hvis Hm) as (_ & _ & _ & -> & _).
  fold trace in Ho |- *. unfold calcMarkerColor. rewrite Hcolor. cbn zeta.
  eexists. split; [reflexivity|]. unfold ValueIndex in *. rewrite !Ho.
  fold (colorFn_of hasColorscale makeColorScaleFn trace). fold colorFn.
  assert ((λ val, (index_of (index_object cont (length (trace_lon trace))) val,
                   colorFn val))
            <$> Object_keys (index_object cont (length (trace_lon trace)))
          ≡ₚ stop_of colorFn <$> index_object cont (length (trace_lon trace)))
    as Hperm.
  { rewrite Object_keys_Permutation.
    by rewrite index_of_entries by apply index_object_NoDup. }
  split; [done|]. rewrite Hperm.
  rewrite <- list_fmap_compose.
  apply (index_object_indices_NoDup cont (length (trace_lon trace))).
Qed.

Lemma color_stops_are_recorded_entries_witness :
  trace_visible trace_abc = VisTrue
  ∧ mode_has "markers" trace_abc = true
  ∧ isArray (marker_color (trace_marker trace_abc)) = true
  ∧ ∃ stops,
      paint (markers (call trace_abc).1) !! "circle-color"
      = Some (PColorStops SIZE_PROP stops)
      ∧ stops ≡ₚ [(0, "a"); (1, "b"); (2, "c")]
      ∧ NoDup stops.*1.
Proof.
  split; [reflexivity|]. split; [reflexivity|]. split; [reflexivity|].
  exact (color_stops_are_recorded_entries number isNumeric_number
           toNumber_number (mode_has "lines") (mode_has "markers")
           no_colorscale no_scale unit_bubble
           {| st_trace := trace_abc; st_hash := ∅ |}
           eq_refl eq_refl eq_refl).
Defined.

(** X9: for an array-valued [marker.size], the [circle-radius] stops are one
    stop per recorded value, the index recorded for the value with the
    radius of its key, in strictly ascending order of the indices. *)
Theorem size_stops_strictly_ascending V (isNumeric : V → bool)
    (toNumber : V → number) (subTypes_hasLines subTypes_hasMarkers : Trace V → bool)
    (hasColorscale : Trace V → string → bool)
    (makeColorScaleFn : list (number * string) → number → number → string → string)
    (makeBubbleSizeFn : Trace V → string → number) (s : Store V) :
  let trace := st_trace s in
  let out := convert isNumeric toNumber subTypes_hasLines subTypes_hasMarkers
               hasColorscale makeColorScaleFn makeBubbleSizeFn s in
  let recorded := st_hash out.2 !!! SIZE_PROP in
  trace_visible trace = VisTrue →
  subTypes_hasMarkers trace = true →
  isArray (marker_size (trace_marker trace)) = true →
  ∃ stops,
    paint (markers out.1) !! "circle-radius" = Some (PSizeStops SIZE_PROP stops)
    ∧ stops ≡ₚ stop_of (makeBubbleSizeFn trace) <$> recorded
    ∧ StronglySorted lt stops.*1.
Proof.
  intros trace out recorded Hvis Hm Harr. subst recorded out.
  destruct (marker_size (trace_marker trace)) as [c|cont] eqn:Hsize; [done|].
  assert (style_array (trace_marker trace) SIZE_PROP = Some cont) as Hstyle.
  { unfold style_array. rewrite decide_False by done.
    rewrite decide_True by done. by rewrite Hsize. }
  pose proof (convert_style_object isNumeric toNumber subTypes_hasLines
                subTypes_hasMarkers hasColorscale makeColorScaleFn
                makeBubbleSizeFn s SIZE_PROP cont Hvis Hm Hstyle) as Ho.
  destruct (convert_marker_layer isNumeric toNumber subTypes_hasLines
              subTypes_hasMarkers hasColorscale makeColorScaleFn
              makeBubbleSizeFn s Hvis Hm) as (_ & _ & _ & _ & ->).
  fold trace in Ho |- *. unfold calcMarkerSize. rewrite Hsize. cbn zeta.
  eexists. split; [reflexivity|]. unfold ValueIndex in *. rewrite !Ho.
  set (o := index_object cont (length (trace_lon trace))).
  assert (sort_stops ((λ val, (index_of o val, makeBubbleSizeFn trace val))
                        <$> Object_keys o)
          ≡ₚ stop_of (makeBubbleSizeFn trace) <$> o) as Hperm.
  { unfold sort_stops. rewrite merge_sort_Permutation, Object_keys_Permutation.
    by rewrite index_of_entries by apply index_object_NoDup. }
  split; [done|].
  apply Sorted_le_NoDup_lt; [apply sort_stops_ascending|].
  rewrite Hperm, <- list_fmap_compose.
  apply (index_object_indices_NoDup cont (length (trace_lon trace))).
Qed.

Lemma size_stops_strictly_ascending_witness :
  trace_visible trace_abc = VisTrue
  ∧ mode_has "markers" trace_abc = true
  ∧ isArray (marker_size (trace_marker trace_abc)) = true
  ∧ ∃ stops,
      paint (markers (call trace_abc).1) !! "circle-radius"
      = Some (PSizeStops SIZE_PROP stops)
      ∧ stops ≡ₚ [(0, 1%float); (1, 1%float); (2, 1%float)]
      ∧ StronglySorted lt stops.*1.
Proof.
  split; [reflexivity|]. split; [reflexivity|]. split; [reflexivity|].
  exact (size_stops_strictly_ascending number isNumeric_number
           toNumber_number (mode_has "lines") (mode_has "markers")
           no_colorscale no_scale unit_bubble
           {| st_trace := trace_abc; st_hash := ∅ |}
           eq_refl eq_refl eq_refl).
Defined.



(** X11: the [circle-color] stops come out in ascending order of their
    indices, without a sort, when no value of [marker.color] has an array
    index for its key and the value read at position [0] is read at no
    later point: the stops are then the recorded entries in the order they
    were recorded. *)
Theorem color_stops_ascending_when V (isNumeric : V → bool)
    (toNumber : V → number) (subTypes_hasLines subTypes_hasMarkers : Trace V → bool)
    (hasColorscale : Trace V → string → bool)
    (makeColorScaleFn : list (number * string) → number → number → string → string)
    (makeBubbleSizeFn : Trace V → string → number) (s : Store V)
    (cont : list string) :
  let trace := st_trace s in
  let out := convert isNumeric toNumber subTypes_hasLines subTypes_hasMarkers
               hasColorscale makeColorScaleFn makeBubbleSizeFn s in
  let recorded := st_hash out.2 !!! COLOR_PROP in
  let colorFn := colorFn_of hasColorscale makeColorScaleFn trace in
  let len := length (trace_lon trace) in
  trace_visible trace = VisTrue →
  subTypes_hasMarkers trace = true →
  marker_color (trace_marker trace) = PerPoint cont →
  first_value_unique cont len →
  (∀ n, n < len → array_index (key_at cont n) = None) →
  paint (markers out.1) !! "circle-color"
  = Some (PColorStops SIZE_PROP (stop_of colorFn <$> recorded))
  ∧ ascending (stop_of colorFn <$> recorded).*1.
Proof.
  intros trace out recorded colorFn len Hvis Hm Hcolor Huniq Hkeys.
  subst recorded out.
  assert (style_array (trace_marker trace) COLOR_PROP = Some cont) as Hstyle.
  { unfold style_array. rewrite decide_True by done. by rewrite Hcolor. }
  pose proof (convert_style_object isNumeric toNumber subTypes_hasLines
                subTypes_hasMarkers hasColorscale makeColorScaleFn
                makeBubbleSizeFn s COLOR_PROP cont Hvis Hm Hstyle) as Ho.
  destruct (convert_marker_layer isNumeric toNumber subTypes_hasLines
              subTypes_hasMarkers hasColorscale makeColorScaleFn
              makeBubbleSizeFn s Hvis Hm) as (_ & _ & _ & -> & _).
  fold trace len in Ho |- *. unfold calcMarkerColor. rewrite Hcolor. cbn zeta.
  unfold ValueIndex in *. rewrite !Ho.
  fold (colorFn_of hasColorscale makeColorScaleFn trace). fold colorFn.
  split.
  - do 2 f_equal. rewrite Object_keys_creation_order.
    + by rewrite index_of_entries by apply index_object_NoDup.
    + apply Forall_forall. intros k Hk.
      apply own_is_Some in Hk as [i Hi].
      apply index_object_occurs in Hi as [Hi <-]. by apply Hkeys.
  - rewrite <- list_fmap_compose. apply StronglySorted_lt_le.
    by apply (index_object_ascending cont len len).
Qed.

Lemma color_stops_ascending_when_witness :
  trace_visible trace_abc = VisTrue
  ∧ mode_has "markers" trace_abc = true
  ∧ marker_color (trace_marker trace_abc) = PerPoint ["a"; "b"; "c"]
  ∧ first_value_unique ["a"; "b"; "c"] 3
  ∧ (∀ n, n < 3 → array_index (key_at ["a"; "b"; "c"] n) = None)
  ∧ paint (markers (call trace_abc).1) !! "circle-color"
    = Some (PColorStops SIZE_PROP [(0, "a"); (1, "b"); (2, "c")]).
Proof.
  assert (first_value_unique ["a"; "b"; "c"] 3) as Huniq.
  { intros j Hpos Hj. destruct j as [|[|[|j]]]; [lia|discriminate..|lia]. }
  assert (∀ n, n < 3 → array_index (key_at ["a"; "b"; "c"] n) = None) as Hkeys.
  { intros n Hn. destruct n as [|[|[|n]]]; [reflexivity..|lia]. }
  split; [reflexivity|]. split; [reflexivity|]. split; [reflexivity|].
  split; [exact Huniq|]. split; [exact Hkeys|].
  exact (proj1 (color_stops_ascending_when number isNumeric_number
                  toNumber_number (mode_has "lines") (mode_has "markers")
                  no_colorscale no_scale unit_bubble
                  {| st_trace := trace_abc; st_hash := ∅ |}
                  ["a"; "b"; "c"] eq_refl eq_refl eq_refl Huniq Hkeys)).
Defined.



(** X13: calls do not see each other: [convert] run again on the store a
    call left returns the same layers and leaves the same store. *)
Theorem convert_again V (isNumeric : V → bool)
    (toNumber : V → number) (subTypes_hasLines subTypes_hasMarkers : Trace V → bool)
    (hasColorscale : Trace V → string → bool)
    (makeColorScaleFn : list (number * string) → number → number → string → string)
    (makeBubbleSizeFn : Trace V → string → number) (s : Store V) :
  let convert := convert isNumeric toNumber subTypes_hasLines
                   subTypes_hasMarkers hasColorscale makeColorScaleFn
                   makeBubbleSizeFn in
  convert (convert s).2 = convert s.
Proof.
  cbn zeta.
  pose proof (convert_trace isNumeric toNumber subTypes_hasLines
                subTypes_hasMarkers hasColorscale makeColorScaleFn
                makeBubbleSizeFn s) as Htrace.
  set (s1 := (convert _ _ _ _ _ _ _ s).2) in *.
  assert ((convert isNumeric toNumber subTypes_hasLines subTypes_hasMarkers
             hasColorscale makeColorScaleFn makeBubbleSizeFn s1).1
          = (convert isNumeric toNumber subTypes_hasLines subTypes_hasMarkers
               hasColorscale makeColorScaleFn makeBubbleSizeFn s).1)
    as Hlayers.
  { destruct s1 as [t1 h1], s as [t h]. simpl in Htrace. subst t1.
    apply convert_hash_fresh. }
  assert ((convert isNumeric toNumber subTypes_hasLines subTypes_hasMarkers
             hasColorscale makeColorScaleFn makeBubbleSizeFn s1).2 = s1)
    as Hstore.
  { destruct (decide (trace_visible (st_trace s) = VisTrue)) as [Hvis|Hvis].
    - destruct (subTypes_hasMarkers (st_trace s)) eqn:Hm.
      + destruct (convert_markers isNumeric toNumber subTypes_hasLines
                    subTypes_hasMarkers hasColorscale makeColorScaleFn
                    makeBubbleSizeFn s Hvis Hm) as [_ Hs1].
        fold s1 in Hs1. rewrite <- Htrace in Hvis, Hm.
        destruct (convert_markers isNumeric toNumber subTypes_hasLines
                    subTypes_hasMarkers hasColorscale makeColorScaleFn
                    makeBubbleSizeFn s1 Hvis Hm) as [_ ->].
        by rewrite Htrace.
      + rewrite <- Htrace in Hm.
        by destruct (convert_no_markers isNumeric toNumber subTypes_hasLines
                       subTypes_hasMarkers hasColorscale makeColorScaleFn
                       makeBubbleSizeFn s1 Hm) as [_ ->].
    - rewrite <- Htrace in Hvis. by rewrite convert_not_visible. }
  rewrite (surjective_pairing (convert _ _ _ _ _ _ _ s1)), Hlayers, Hstore.
  subst s1. by destruct (convert _ _ _ _ _ _ _ s).
Qed.
